(** * keep-alive: a shallow embedding of [main.go]

    The program is one Go file: [main] (banner, platform check, event
    loop), [_simulateActivity] (the per-tick platform strategy) and
    [_monitorKeyboard] (the console reader that feeds the quit channel).

    What the operating system decides is an input of the model: the
    platform identifier [runtime.GOOS], the result of [exec.LookPath], the
    result of [cmd.Run], the wall clock, the runes arriving on standard
    input, and the order in which the [select] of the event loop receives
    from its three channels. *)

From Stdlib Require Import String Ascii List Bool NArith Arith Lia DecimalString.
Import ListNotations.

Open Scope string_scope.

(** ** Characters that a Rocq string literal cannot hold directly *)

Definition LF : string := String (ascii_of_nat 10) EmptyString.
Definition TAB : string := String (ascii_of_nat 9) EmptyString.
Definition DQ : string := String (ascii_of_nat 34) EmptyString.

(** ** The part of package [fmt] that [_monitorKeyboard] runs

    [fmt.Scanln(&input)] with one [*string] operand, reading [os.Stdin].
    [os.Stdin] has no [ReadRune] method, so [fmt] wraps it in its own
    one-byte-at-a-time rune reader: nothing beyond the runes a call
    consumes is taken from the file.  Standard input is modelled after
    UTF-8 decoding, as the list of runes (code points) still unread,
    followed by end of file. *)

Module Fmt.

Definition rune := N.

Definition nl : rune := 10%N.
Definition cr : rune := 13%N.

(** [runes s] is the decoding of an ASCII string: one rune per byte. *)
Definition runes (s : string) : list rune :=
  map N_of_ascii (list_ascii_of_string s).

Fixpoint runes_eqb (a b : list rune) : bool :=
  match a, b with
  | [], [] => true
  | x :: a', y :: b' => N.eqb x y && runes_eqb a' b'
  | _, _ => false
  end.

(** The table [space] of fmt/scan.go. *)
Definition space : list (N * N) :=
  [ (0x0009, 0x000d); (0x0020, 0x0020); (0x0085, 0x0085); (0x00a0, 0x00a0);
    (0x1680, 0x1680); (0x2000, 0x200a); (0x2028, 0x2029); (0x202f, 0x202f);
    (0x205f, 0x205f); (0x3000, 0x3000) ]%N.

Fixpoint isSpace_in (rx : N) (ranges : list (N * N)) : bool :=
  match ranges with
  | [] => false
  | (lo, hi) :: ranges' =>
      if (rx <? lo)%N then false
      else if (rx <=? hi)%N then true
      else isSpace_in rx ranges'
  end.

Definition isSpace (r : rune) : bool :=
  if (0x10000 <=? r)%N then false else isSpace_in r space.

Definition notSpace (r : rune) : bool := negb (isSpace r).

(** The errors a scan can end with. *)
Inductive scanError : Type :=
| errUnexpectedNewline   (* "unexpected newline" *)
| errExpectedNewline     (* "expected newline" *)
| errEOF.                (* io.EOF *)

(** The scan state [ss]: the reader (with the rune pushed back by
    [UnreadRune], if any, at its head) and the [atEOF] flag. [nlIsSpace] is
    false and [nlIsEnd] is true throughout, as [Fscanln] sets them. *)
Record ss : Type := mk_ss { rs : list rune; atEOF : bool }.

(** [ReadRune]: [None] is io.EOF. Reading a newline sets [atEOF]. *)
Definition ReadRune (s : ss) : option rune * ss :=
  if atEOF s then (None, s)
  else match rs s with
       | [] => (None, mk_ss [] true)
       | r :: t => (Some r, mk_ss t (N.eqb r nl))
       end.

(** [UnreadRune] gives back the rune just read and clears [atEOF]. *)
Definition UnreadRune (r : rune) (s : ss) : ss := mk_ss (r :: rs s) false.

(** [peek "\n"]: reads one rune, gives it back, and says whether it was a
    newline. On a reader whose flag is clear the state is unchanged unless
    the input is exhausted. *)
Definition peek_nl (s : ss) : bool * ss :=
  match ReadRune s with
  | (None, s') => (false, s')
  | (Some r, s') => (N.eqb r nl, UnreadRune r s')
  end.

(** The loop of [SkipSpace], entered with [atEOF] clear on input [l]:
    a carriage return before a newline is passed over, a newline is the
    error "unexpected newline", other white space is skipped, and the first
    rune that is not white space is given back. *)
Fixpoint SkipSpace_loop (l : list rune) : option scanError * ss :=
  match l with
  | [] => (None, mk_ss [] true)
  | r :: t =>
      if N.eqb r cr && fst (peek_nl (mk_ss t false)) then SkipSpace_loop t
      else if N.eqb r nl then (Some errUnexpectedNewline, mk_ss t true)
      else if negb (isSpace r) then (None, UnreadRune r (mk_ss t false))
      else SkipSpace_loop t
  end.

Definition SkipSpace (s : ss) : option scanError * ss :=
  if atEOF s then (None, s) else SkipSpace_loop (rs s).

(** [notEOF] panics with io.EOF when no rune is left. *)
Definition notEOF (s : ss) : option scanError * ss :=
  match ReadRune s with
  | (None, s') => (Some errEOF, s')
  | (Some r, s') => (None, UnreadRune r s')
  end.

(** The reading loop of [token(true, notSpace)], after its [SkipSpace]:
    runes are appended to the buffer up to end of input or to the first
    white-space rune, which is given back. *)
Fixpoint token_loop (l : list rune) : list rune * ss :=
  match l with
  | [] => ([], mk_ss [] true)
  | r :: t =>
      if notSpace r
      then let '(buf, s') := token_loop t in (r :: buf, s')
      else ([], UnreadRune r (mk_ss t false))
  end.

Definition token (s : ss) : (option scanError * list rune) * ss :=
  match SkipSpace s with
  | (Some e, s') => ((Some e, []), s')
  | (None, s') =>
      if atEOF s' then ((None, []), s')
      else let '(buf, s'') := token_loop (rs s') in ((None, buf), s'')
  end.

(** [convertString] for the verb %v: skip white space, demand input, take
    the next word. *)
Definition convertString (s : ss) : (option scanError * list rune) * ss :=
  match SkipSpace s with
  | (Some e, s1) => ((Some e, []), s1)
  | (None, s1) =>
      match notEOF s1 with
      | (Some e, s2) => ((Some e, []), s2)
      | (None, s2) => token s2
      end
  end.

(** The check that ends [doScan] when [nlIsEnd] is set: after the last
    operand only white space may come before the newline or the end of
    input. The rune that breaks this rule has been read when the error is
    raised and is not given back. *)
Fixpoint expectNewline_loop (l : list rune) : option scanError * ss :=
  match l with
  | [] => (None, mk_ss [] true)
  | r :: t =>
      if N.eqb r nl then (None, mk_ss t true)
      else if negb (isSpace r) then (Some errExpectedNewline, mk_ss t false)
      else expectNewline_loop t
  end.

Definition expectNewline (s : ss) : option scanError * ss :=
  if atEOF s then (None, s) else expectNewline_loop (rs s).

(** [Scanln input stdin]: the new value of the operand, the error
    ([None] is nil) and what is left of standard input. The operand is
    assigned as soon as its word is converted, before the newline check, and
    keeps its old value when the conversion itself fails. Every path ends
    on a read that is not given back, so no pushed-back rune is pending when
    the scan state is dropped. *)
Definition Scanln (input : list rune) (stdin : list rune)
  : (list rune * option scanError) * list rune :=
  match convertString (mk_ss stdin false) with
  | ((Some e, _), s1) => ((input, Some e), rs s1)
  | ((None, str), s1) =>
      let '(err, s2) := expectNewline s1 in ((str, err), rs s2)
  end.

End Fmt.


(** ** The console reader, [_monitorKeyboard]

    One pass of the [for] loop declares a fresh [input], calls [Scanln],
    goes round again on an error, and otherwise compares [input] with the
    three quit commands; on a match it sends on [keyboardChan] and
    returns. The channel has room for one value and this is the only send
    on it, so the send never blocks. *)

Module Keyboard.
Import Fmt.

(** [input == "q" || input == "quit" || input == "exit"] *)
Definition is_quit (input : list rune) : bool :=
  runes_eqb input (runes "q") || runes_eqb input (runes "quit")
  || runes_eqb input (runes "exit").

(** Where the goroutine is: still in its loop with this much of standard
    input unread, or returned. *)
Inductive Reader : Type :=
| Reading (stdin : list rune)
| Returned (stdin : list rune).

(** A reader together with the number of values it has sent on
    [keyboardChan]. *)
Record Monitor : Type := mk_monitor { reader : Reader; sent : nat }.

(** One pass of the loop body. *)
Definition iteration (stdin : list rune) : Monitor :=
  match Scanln [] stdin with
  | ((_, Some _), rest) => mk_monitor (Reading rest) 0
  | ((input, None), rest) =>
      if is_quit input then mk_monitor (Returned rest) 1
      else mk_monitor (Reading rest) 0
  end.

(** [_monitorKeyboard n stdin]: the goroutine after at most [n] passes of
    its loop. The loop has no exit but the [return] after the send. *)
Fixpoint _monitorKeyboard (n : nat) (stdin : list rune) : Monitor :=
  match n with
  | O => mk_monitor (Reading stdin) 0
  | S n' =>
      match iteration stdin with
      | mk_monitor (Reading rest) k =>
          let m := _monitorKeyboard n' rest in
          mk_monitor (reader m) (k + sent m)
      | m => m
      end
  end.

(** A console line: its text followed by the newline. *)
Definition line (text : string) : list rune := runes text ++ [nl].

(** White space that does not end the line. *)
Definition blank (r : rune) : bool := isSpace r && negb (N.eqb r nl).

End Keyboard.

(** ** The platform strategy, [_simulateActivity] *)

Module Strategy.

(** [exec.Command(name, arg...)] *)
Record Cmd : Type := exec_Command { name : string; arg : list string }.

(** The wall clock, as far as the layout "15:04:05" shows it. *)
Record Time : Type := mk_time { hour : nat; minute : nat; second : nat }.

Definition digit (n : nat) : string :=
  String (ascii_of_nat (48 + n mod 10)) EmptyString.

Definition two_digits (n : nat) : string := digit (n / 10) ++ digit n.

(** [t.Format("15:04:05")] *)
Definition Format (t : Time) : string :=
  two_digits (hour t) ++ ":" ++ two_digits (minute t) ++ ":"
  ++ two_digits (second t).

(** What the host answers during one invocation: whether
    [exec.LookPath] finds a file ([err == nil]), the error of [cmd.Run]
    ([None] is nil, otherwise the text of the error), and [time.Now()]. *)
Record Host : Type := mk_host {
  LookPath : string -> bool;
  Run : Cmd -> option string;
  Now : Time
}.

(** What an invocation does to the world outside, in order: a call of
    [exec.LookPath], a call of [cmd.Run] (which returns an error, and starts
    nothing, when the command cannot be launched), a print. *)
Inductive Action : Type :=
| DoLookPath (file : string)
| DoRun (cmd : Cmd)
| Print (text : string).

Fixpoint tabs (n : nat) : string :=
  match n with
  | O => EmptyString
  | S n' => TAB ++ tabs n'
  end.

(** One line of a raw string literal: its indentation, its text and the
    newline. *)
Definition raw (indent : nat) (text : string) : string :=
  tabs indent ++ text ++ LF.

(** The AppleScript literal of the darwin fallback. *)
Definition darwin_script : string :=
  LF
  ++ raw 4 ("tell application " ++ DQ ++ "System Events" ++ DQ)
  ++ raw 5 "set currentPos to (get position of mouse)"
  ++ raw 5 "set mouseX to item 1 of currentPos"
  ++ raw 5 "set mouseY to item 2 of currentPos"
  ++ raw 5 "set mouse position to {mouseX + 1, mouseY + 1}"
  ++ raw 5 "delay 0.01"
  ++ raw 5 "set mouse position to {mouseX, mouseY}"
  ++ raw 4 "end tell"
  ++ tabs 3.

(** The PowerShell literal of the windows branch. *)
Definition windows_script : string :=
  LF
  ++ raw 3 "Add-Type -TypeDefinition '"
  ++ raw 4 "using System;"
  ++ raw 4 "using System.Runtime.InteropServices;"
  ++ raw 4 "public class Win32 {"
  ++ raw 5 ("[DllImport(" ++ DQ ++ "user32.dll" ++ DQ ++ ")]")
  ++ raw 5 "public static extern bool GetCursorPos(out POINT lpPoint);"
  ++ raw 5 ("[DllImport(" ++ DQ ++ "user32.dll" ++ DQ ++ ")]")
  ++ raw 5 "public static extern bool SetCursorPos(int x, int y);"
  ++ raw 5 "public struct POINT { public int x; public int y; }"
  ++ raw 4 "}"
  ++ raw 3 "';"
  ++ raw 3 "$pos = New-Object Win32+POINT;"
  ++ raw 3 "[Win32]::GetCursorPos([ref]$pos);"
  ++ raw 3 "[Win32]::SetCursorPos($pos.x + 1, $pos.y + 1);"
  ++ raw 3 "Start-Sleep -Milliseconds 10;"
  ++ raw 3 "[Win32]::SetCursorPos($pos.x, $pos.y);"
  ++ tabs 2.

(** The [switch runtime.GOOS] of [_simulateActivity]: the calls made while
    choosing, and the command chosen ([None] in the default case, which
    prints and returns). *)
Definition choose (GOOS : string) (h : Host) : list Action * option Cmd :=
  if GOOS =? "darwin" then
    if LookPath h "cliclick"
    then ([DoLookPath "cliclick"],
          Some (exec_Command "cliclick" ["m:+1,+1"; "w:10"; "m:-1,-1"]))
    else ([DoLookPath "cliclick"],
          Some (exec_Command "osascript" ["-e"; darwin_script]))
  else if GOOS =? "windows" then
    ([], Some (exec_Command "powershell" ["-Command"; windows_script]))
  else
    ([Print ("[" ++ Format (Now h) ++ "] Error: Unsupported operating system: "
             ++ GOOS ++ LF)],
     None).

(** What is printed once [cmd.Run] has returned [err]. *)
Definition report (GOOS : string) (h : Host) (err : option string)
  : list Action :=
  match err with
  | Some e =>
      let timestamp := Format (Now h) in
      if GOOS =? "darwin" then
        [ Print ("[" ++ timestamp
                 ++ "] Warning: Failed to simulate mouse activity: " ++ e ++ LF);
          Print ("[" ++ timestamp
                 ++ "] Troubleshooting: Try 'brew install cliclick' or grant accessibility permissions"
                 ++ LF) ]
      else
        [ Print ("[" ++ timestamp
                 ++ "] Warning: Failed to simulate mouse activity: " ++ e ++ LF) ]
  | None =>
      [ Print ("[" ++ Format (Now h) ++ "] Simulated mouse activity" ++ LF) ]
  end.

Definition _simulateActivity (GOOS : string) (h : Host) : list Action :=
  match choose GOOS h with
  | (looked, None) => looked
  | (looked, Some cmd) => looked ++ DoRun cmd :: report GOOS h (Run h cmd)
  end.

(** The command an invocation settles on, if any. *)
Definition chosen (GOOS : string) (h : Host) : option Cmd :=
  snd (choose GOOS h).

(** The statements of a script literal: its lines without their
    indentation, blank lines left out. *)
Fixpoint lines_of (s : string) : list string :=
  match s with
  | EmptyString => [EmptyString]
  | String c s' =>
      if Ascii.eqb c (ascii_of_nat 10) then EmptyString :: lines_of s'
      else match lines_of s' with
           | l :: ls => String c l :: ls
           | [] => [String c EmptyString]
           end
  end.

Fixpoint unindent (s : string) : string :=
  match s with
  | String c s' => if Ascii.eqb c (ascii_of_nat 9) then unindent s' else s
  | EmptyString => EmptyString
  end.

Definition statements (script : string) : list string :=
  filter (fun l => negb (l =? EmptyString)) (map unindent (lines_of script)).

(** [mentions needle text]: [needle] occurs in [text]. *)
Fixpoint mentions (needle text : string) : bool :=
  prefix needle text
  || match text with
     | EmptyString => false
     | String _ text' => mentions needle text'
     end.

(** The remedies the messages of the program name: installing the helper
    and granting the permission. *)
Definition names_remedy (text : string) : bool :=
  mentions "install" text || mentions "grant" text.

(** The texts printed, in order. *)
Fixpoint printed (acts : list Action) : list string :=
  match acts with
  | [] => []
  | Print text :: acts' => text :: printed acts'
  | _ :: acts' => printed acts'
  end.

(** The commands [cmd.Run] is called on, in order. *)
Fixpoint commands (acts : list Action) : list Cmd :=
  match acts with
  | [] => []
  | DoRun cmd :: acts' => cmd :: commands acts'
  | _ :: acts' => commands acts'
  end.

(** The names [exec.LookPath] is called on, in order. *)
Fixpoint lookups (acts : list Action) : list string :=
  match acts with
  | [] => []
  | DoLookPath file :: acts' => file :: lookups acts'
  | _ :: acts' => lookups acts'
  end.

End Strategy.

(** ** The program, [main] *)

Module Main.
Import Strategy.

(** The three variables a build stamps. *)
Record Build : Type := mk_build {
  Version : string;
  BuildTime : string;
  Environment : string
}.

Definition unstamped : Build := mk_build "dev" "unknown" "dev".

(** [defaultInterval], in seconds; [%v] prints it as "30s". *)
Definition defaultInterval : nat := 30.

Definition seconds_String (d : nat) : string :=
  NilEmpty.string_of_uint (Nat.to_uint d) ++ "s".

(** What one [select] of the event loop receives: a signal (SIGINT or
    SIGTERM, registered by [signal.Notify]), the quit of the console reader
    started by [go _monitorKeyboard(keyboardChan)], or a tick of the ticker,
    which comes with what the host answers during the invocation it starts.
    Which channel a [select] takes when several are ready is the choice of
    the Go runtime: the list of events is the sequence of its choices. *)
Inductive Event : Type :=
| sigChan
| keyboardChan
| tickerC (h : Host).

Inductive Status : Type :=
| Running               (* waiting in [select] *)
| Exited (code : nat).

(** A run of the process: what it did, how many times it called
    [_simulateActivity], and whether it has exited. *)
Record Process : Type := mk_process {
  actions : list Action;
  invocations : nat;
  status : Status
}.



(** The lines printed before the platform check. *)
Definition banner (b : Build) (GOOS GOARCH : string) : list Action :=
  [ Print ("Keep-Alive Tool" ++ LF);
    Print ("===============" ++ LF);
    Print ("Version: " ++ Version b ++ LF);
    Print ("Build: " ++ BuildTime b ++ " (" ++ Environment b ++ ")" ++ LF);
    Print ("Platform: " ++ GOOS ++ "/" ++ GOARCH ++ LF);
    Print ("Simulating user activity every " ++ seconds_String defaultInterval
           ++ " to prevent screen lock" ++ LF);
    Print ("Press Ctrl+C to stop, or type 'q' and press Enter to quit" ++ LF);
    Print LF ].

(** The [switch runtime.GOOS] of [main]: what it prints, and whether it
    calls [os.Exit(1)]. *)
Definition platform_check (GOOS : string) : list Action * option nat :=
  if GOOS =? "darwin" then
    ([ Print ("macOS detected - Using cliclick for mouse simulation" ++ LF);
       Print ("Note: If mouse movement fails, install cliclick: brew install cliclick"
              ++ LF) ],
     None)
  else if GOOS =? "windows" then
    ([ Print ("Windows detected - Using PowerShell with Windows API" ++ LF) ],
     None)
  else
    ([ Print ("Error: This tool supports macOS and Windows only (detected: "
              ++ GOOS ++ ")" ++ LF) ],
     Some 1).

(** The [for { select { ... } }] loop over the events it receives.
    Returning from [main] ends the process with status 0. *)
Fixpoint loop (GOOS : string) (events : list Event) : Process :=
  match events with
  | [] => mk_process [] 0 Running
  | sigChan :: _ =>
      mk_process
        [ Print (LF ++ "Shutdown signal received. Stopping keep-alive tool..."
                 ++ LF) ]
        0 (Exited 0)
  | keyboardChan :: _ =>
      mk_process
        [ Print (LF ++ "Keyboard quit received. Stopping keep-alive tool..."
                 ++ LF) ]
        0 (Exited 0)
  | tickerC h :: events' =>
      let p := loop GOOS events' in
      mk_process (_simulateActivity GOOS h ++ actions p)
                 (S (invocations p)) (status p)
  end.

Definition main (b : Build) (GOOS GOARCH : string) (events : list Event)
  : Process :=
  match platform_check GOOS with
  | (told, Some code) =>
      mk_process (banner b GOOS GOARCH ++ told) 0 (Exited code)
  | (told, None) =>
      let p := loop GOOS events in
      mk_process
        (banner b GOOS GOARCH ++ told
         ++ Print LF :: Print ("Starting keep-alive simulation..." ++ LF)
         :: actions p)
        (invocations p) (status p)
  end.

End Main.

(** ** Sample hosts, for the worked cases below *)

Module Hosts.
Import Strategy.

(** The helper is installed and every command succeeds. *)
Definition equipped : Host :=
  mk_host (fun _ => true) (fun _ => None) (mk_time 7 0 0).

(** The helper is missing and every command succeeds. *)
Definition bare : Host :=
  mk_host (fun _ => false) (fun _ => None) (mk_time 8 30 0).

(** The helper is missing and every command fails. *)
Definition failing : Host :=
  mk_host (fun _ => false) (fun _ => Some "exit status 1") (mk_time 14 30 15).

End Hosts.

(** ** What one read can be

    The five ways a call of [Scanln] on one string operand can go, read off
    the input: [Read stdin (input, err) rest] says that on [stdin] the call
    leaves [input] in the operand, returns [err] and leaves [rest] unread. *)

Module Lines.
Import Fmt Keyboard.

Inductive Read : list rune -> list rune * option scanError -> list rune -> Prop :=
| ReadEnd (pre : list rune) :
    (* nothing but blanks before the end of input *)
    forallb blank pre = true ->
    Read pre ([], Some errEOF) []
| ReadBlankLine (pre rest : list rune) :
    (* nothing but blanks before the newline *)
    forallb blank pre = true ->
    Read (pre ++ nl :: rest) ([], Some errUnexpectedNewline) rest
| ReadLastWord (pre w post : list rune) :
    (* one word, then the end of input *)
    forallb blank pre = true -> w <> [] -> forallb notSpace w = true ->
    forallb blank post = true ->
    Read (pre ++ w ++ post) (w, None) []
| ReadWord (pre w post rest : list rune) :
    (* one word, then the newline *)
    forallb blank pre = true -> w <> [] -> forallb notSpace w = true ->
    forallb blank post = true ->
    Read (pre ++ w ++ post ++ nl :: rest) (w, None) rest
| ReadTwoWords (pre w post : list rune) (c : rune) (tail : list rune) :
    (* one word, blanks, and the first rune of a second word *)
    forallb blank pre = true -> w <> [] -> forallb notSpace w = true ->
    post <> [] -> forallb blank post = true -> notSpace c = true ->
    Read (pre ++ w ++ post ++ c :: tail) (w, Some errExpectedNewline) tail.

(** The same input as a console that ends its lines with carriage return
    and newline delivers it. *)
Fixpoint crlf (stdin : list rune) : list rune :=
  match stdin with
  | [] => []
  | r :: stdin' => if N.eqb r nl then cr :: nl :: crlf stdin'
                   else r :: crlf stdin'
  end.

(** A reader with its unread input rewritten. *)
Definition on_unread (f : list rune -> list rune) (m : Monitor) : Monitor :=
  match reader m with
  | Reading stdin => mk_monitor (Reading (f stdin)) (sent m)
  | Returned stdin => mk_monitor (Returned (f stdin)) (sent m)
  end.

(** The unread input of a reader. *)
Definition unread (m : Monitor) : list rune :=
  match reader m with
  | Reading stdin => stdin
  | Returned stdin => stdin
  end.


End Lines.

(** ** The macOS build script

    The bash script that builds the darwin binary and stamps [Version],
    [BuildTime] and [Environment] into it. The script runs under [set -e]:
    a command that fails outside a condition ends it with the status of that
    command. The model keeps the options, the commands run for their effect
    ([cd], [rm], [go], [mkdir], [chmod]), the variables exported and the exit
    status; what is echoed, and the commands that only compute what is
    echoed ([pwd], [stat], [bc]), are left out. [uname] and [date] are taken
    to succeed, and a failing [git rev-parse] to print nothing. *)

Module BuildSh.

(** The variables the options set, with their defaults. *)
Record Options : Type := mk_options {
  ENVIRONMENT : string;
  VERSION : string;
  CLEAN : bool;
  TEST : bool;
  VERBOSE : bool;
  RELEASE : bool;
  ARCH : string
}.

Definition defaults : Options :=
  mk_options "dev" EmptyString false false false false EmptyString.

(** How the option loop ends: all arguments read, or [exit]. *)
Inductive Parse : Type :=
| Parsed (o : Options)
| Leave (code : nat).

(** The [while [[ $# -gt 0 ]]] loop. An option that takes a value reads it
    from [$2] and shifts by two; when it is the last argument [shift 2]
    fails and [set -e] ends the script with status 1. [--help] leaves with
    0 and anything unknown with 1, both at once. *)
Fixpoint parse (args : list string) (o : Options) : Parse :=
  match args with
  | [] => Parsed o
  | a :: rest =>
      if (a =? "-e") || (a =? "--environment") then
        match rest with
        | v :: rest' =>
            parse rest' (mk_options v (VERSION o) (CLEAN o) (TEST o)
                                    (VERBOSE o) (RELEASE o) (ARCH o))
        | [] => Leave 1
        end
      else if (a =? "-v") || (a =? "--version") then
        match rest with
        | v :: rest' =>
            parse rest' (mk_options (ENVIRONMENT o) v (CLEAN o) (TEST o)
                                    (VERBOSE o) (RELEASE o) (ARCH o))
        | [] => Leave 1
        end
      else if (a =? "-c") || (a =? "--clean") then
        parse rest (mk_options (ENVIRONMENT o) (VERSION o) true (TEST o)
                               (VERBOSE o) (RELEASE o) (ARCH o))
      else if (a =? "-t") || (a =? "--test") then
        parse rest (mk_options (ENVIRONMENT o) (VERSION o) (CLEAN o) true
                               (VERBOSE o) (RELEASE o) (ARCH o))
      else if (a =? "-r") || (a =? "--release") then
        parse rest (mk_options (ENVIRONMENT o) (VERSION o) (CLEAN o) (TEST o)
                               (VERBOSE o) true (ARCH o))
      else if (a =? "-a") || (a =? "--arch") then
        match rest with
        | v :: rest' =>
            parse rest' (mk_options (ENVIRONMENT o) (VERSION o) (CLEAN o)
                                    (TEST o) (VERBOSE o) (RELEASE o) v)
        | [] => Leave 1
        end
      else if a =? "--verbose" then
        parse rest (mk_options (ENVIRONMENT o) (VERSION o) (CLEAN o) (TEST o)
                               true (RELEASE o) (ARCH o))
      else if (a =? "-h") || (a =? "--help") then Leave 0
      else Leave 1
  end.

(** What the machine answers. *)
Record World : Type := mk_world {
  project_root : string;             (* the directory above the script *)
  uname_m : string;                  (* uname -m *)
  dot_version : option string;       (* [None]: no .version file; otherwise
                                        what grep, awk and tr leave of it *)
  git_rev_parse : option (option string);
                                     (* [None]: no git; [Some None]: it
                                        fails; otherwise the short hash *)
  date_now : string;                 (* date '+%Y-%m-%d %H:%M:%S' *)
  bin_is_dir : bool;                 (* [[ -d "bin" ]] *)
  status_of : list string -> nat     (* exit status of a command *)
}.

(** What a run does, in order. *)
Inductive Step : Type :=
| Exec (argv : list string)
| Export (name value : string).

(** A piece of script: the steps it takes, and its value or the status it
    exits with. *)
Definition Script (A : Type) : Type := World -> list Step * (A + nat).

Definition ret {A : Type} (a : A) : Script A := fun _ => ([], inl a).

Definition exit {A : Type} (code : nat) : Script A := fun _ => ([], inr code).

Definition bind {A B : Type} (m : Script A) (k : A -> Script B) : Script B :=
  fun w =>
    match m w with
    | (steps, inr code) => (steps, inr code)
    | (steps, inl a) =>
        let '(steps', r) := k a w in ((steps ++ steps')%list, r)
    end.

Declare Scope script_scope.
Delimit Scope script_scope with script.
Notation "x <- m ;; k" := (bind m (fun x => k))
  (at level 61, m at next level, right associativity) : script_scope.
Notation "m ;; k" := (bind m (fun _ => k))
  (at level 61, right associativity) : script_scope.

(** A command run for its effect, under [set -e]. *)
Definition exec (argv : list string) : Script unit :=
  fun w => ([Exec argv],
            if Nat.eqb (status_of w argv) 0 then inl tt
            else inr (status_of w argv)).

Definition export (name value : string) : Script unit :=
  fun _ => ([Export name value], inl tt).

(** [case $ENVIRONMENT in dev|staging|prod)] *)
Definition valid_environment (e : string) : bool :=
  (e =? "dev") || (e =? "staging") || (e =? "prod").

(** The architecture to build for: detected from [uname -m] when [ARCH] is
    empty or "auto", otherwise [ARCH] itself if it is one of the two. *)
Definition target_arch (o : Options) (w : World) : option string :=
  if (ARCH o =? EmptyString) || (ARCH o =? "auto") then
    if uname_m w =? "x86_64" then Some "amd64"
    else if uname_m w =? "arm64" then Some "arm64"
    else None
  else if (ARCH o =? "amd64") || (ARCH o =? "arm64") then Some (ARCH o)
  else None.

(** The version to stamp: the option, else the .version file, else the
    git hash, else "dev". *)
Definition resolve_version (o : Options) (w : World) : string :=
  if VERSION o =? EmptyString then
    let from_file := match dot_version w with
                     | Some v => v
                     | None => EmptyString
                     end in
    if from_file =? EmptyString then
      match git_rev_parse w with
      | Some (Some hash) => hash
      | Some None => "dev"
      | None => "dev"
      end
    else from_file
  else VERSION o.

Definition clean (o : Options) : Script unit :=
  if CLEAN o then
    ((fun w => (if bin_is_dir w then exec ["rm"; "-rf"; "bin"]
                else ret tt) w) ;;
     exec ["go"; "clean"; "-cache"])%script
  else ret tt.

Definition test (o : Options) : Script unit :=
  if TEST o then
    if VERBOSE o then exec ["go"; "test"; "-v"; "./..."]
    else exec ["go"; "test"; "./..."]
  else ret tt.

Definition OUTPUT_NAME (arch : string) : string :=
  if arch =? "amd64" then "keep-alive-darwin-amd64"
  else if arch =? "arm64" then "keep-alive-darwin-arm64"
  else EmptyString.

Definition LDFLAGS (o : Options) (version build_time : string) : list string :=
  ([ ("-X 'main.Version=" ++ version ++ "'")%string;
     ("-X 'main.BuildTime=" ++ build_time ++ "'")%string;
     ("-X 'main.Environment=" ++ ENVIRONMENT o ++ "'")%string ]
   ++ (if RELEASE o then ["-s"; "-w"] else []))%list.

Definition BUILD_ARGS (o : Options) (output_path version build_time : string)
  : list string :=
  (["build"; "-o"; output_path]
   ++ (if RELEASE o then ["-trimpath"] else [])
   ++ ["-ldflags"; String.concat " " (LDFLAGS o version build_time)]
   ++ (if VERBOSE o then ["-v"] else [])
   ++ ["."])%list.

(** [if ! go "${BUILD_ARGS[@]}"; then ... exit 1; fi] *)
Definition go_build (build_args : list string) : Script unit :=
  fun w => ([Exec ("go" :: build_args)],
            if Nat.eqb (status_of w ("go" :: build_args)) 0 then inl tt
            else inr 1).

(** The script after its options are read. *)
Definition build (o : Options) : Script unit :=
  ((fun w => exec ["cd"; project_root w] w) ;;
   (if valid_environment (ENVIRONMENT o) then ret tt else exit 1) ;;
   arch <- (fun w => match target_arch o w with
                     | Some arch => ret arch w
                     | None => exit 1 w
                     end) ;;
   version <- (fun w => ret (resolve_version o w) w) ;;
   build_time <- (fun w => ret (date_now w) w) ;;
   clean o ;;
   test o ;;
   exec ["mkdir"; "-p"; "bin"] ;;
   export "CGO_ENABLED" "0" ;;
   export "GOOS" "darwin" ;;
   export "GOARCH" arch ;;
   go_build (BUILD_ARGS o ("bin/" ++ OUTPUT_NAME arch)%string version
                        build_time) ;;
   exec ["chmod"; "+x"; ("bin/" ++ OUTPUT_NAME arch)%string])%script.

(** The whole script: the steps taken and the exit status. *)
Definition build_sh (args : list string) (w : World) : list Step * nat :=
  match parse args defaults with
  | Leave code => ([], code)
  | Parsed o =>
      match build o w with
      | (steps, inl _) => (steps, 0)
      | (steps, inr code) => (steps, code)
      end
  end.

(** The discipline of [set -e]: a command that is not the last step taken
    has succeeded, so has every command of a piece of script that runs to
    its end, and a piece of script that exits on the way exits with a status
    other than 0. *)
Definition disciplined {A : Type} (w : World) (m : Script A) : Prop :=
  (forall argv, In (Exec argv) (removelast (fst (m w))) -> status_of w argv = 0)
  /\ (forall a, snd (m w) = inl a ->
                forall argv, In (Exec argv) (fst (m w)) -> status_of w argv = 0)
  /\ (forall code, snd (m w) = inr code -> code <> 0).

(** A machine where everything works: an Apple Silicon Mac with a
    .version file and git. *)
Definition workshop : World :=
  mk_world "/src/keep-alive" "arm64" (Some "1.2.3") (Some (Some "abc1234"))
           "2025-09-18 11:01:17" true (fun _ => 0).

(** The same machine with failing tests. *)
Definition red_tests : World :=
  mk_world "/src/keep-alive" "arm64" (Some "1.2.3") (Some (Some "abc1234"))
           "2025-09-18 11:01:17" true
           (fun argv => if list_eq_dec string_dec argv ["go"; "test"; "./..."]
                        then 2 else 0).

End BuildSh.

(** ** Names for what a run can hold *)

Module Runs.
Import Strategy Main.

(** An event that ends the loop. *)
Definition stops (e : Event) : bool :=
  match e with
  | tickerC _ => false
  | _ => true
  end.

(** The three commands [_simulateActivity] builds. *)
Definition cliclick : Cmd :=
  exec_Command "cliclick" ["m:+1,+1"; "w:10"; "m:-1,-1"].

Definition osascript : Cmd := exec_Command "osascript" ["-e"; darwin_script].

Definition powershell : Cmd :=
  exec_Command "powershell" ["-Command"; windows_script].

End Runs.

(** ** The ticker, and the time an invocation takes

    [time.NewTicker(defaultInterval)] makes a channel with room for one
    tick. The runtime sends a tick at every multiple of the interval after
    the ticker was made, and never blocks: a tick that finds the channel
    full is dropped. The loop receives from the channel only when it is in
    [select], and [_simulateActivity] is an ordinary call with no time limit
    on [cmd.Run]: while it runs, at most one tick waits in the channel and
    the others are lost. Time is counted in nanoseconds from the making of
    the ticker. *)

Module Ticker.
Import Strategy Main Hosts.



(** A tick the loop serves: what the host answers during the invocation,
    and how long the invocation takes to return. *)
Record Served : Type := mk_served { answers : Host; lasts : N }.




(** The events the [select] receives in that run. *)
Definition events (served : list Served) : list Event :=
  map (fun x => tickerC (answers x)) served.




End Ticker.

(** * Properties *)

Import Fmt Keyboard Strategy Main Hosts Lines Runs Ticker.

Open Scope list_scope.

(** ** Scanning one line *)

Section Scanning.

Lemma runes_eqb_eq (a b : list rune) : runes_eqb a b = true <-> a = b.
Proof.
  revert b; induction a as [|x a IH]; intros [|y b]; simpl;
    try (split; [discriminate | discriminate]); try tauto.
  rewrite andb_true_iff, N.eqb_eq, IH.
  split; [intros [-> ->]; reflexivity | intros E; injection E; auto].
Qed.

Lemma notSpace_not_nl (c : rune) : notSpace c = true -> N.eqb c nl = false.
Proof.
  intros H. destruct (N.eqb_spec c nl) as [->|]; [discriminate H | reflexivity].
Qed.

Lemma notSpace_not_cr (c : rune) : notSpace c = true -> N.eqb c cr = false.
Proof.
  intros H. destruct (N.eqb_spec c cr) as [->|]; [discriminate H | reflexivity].
Qed.

Lemma notSpace_isSpace (c : rune) : notSpace c = true -> isSpace c = false.
Proof. unfold notSpace. now destruct (isSpace c). Qed.

Lemma blank_inv (r : rune) :
  blank r = true -> isSpace r = true /\ N.eqb r nl = false.
Proof.
  unfold blank. rewrite andb_true_iff, negb_true_iff. tauto.
Qed.

(** Leading blanks are skipped and the first rune of the word is given
    back. *)
Lemma SkipSpace_loop_blanks (pre : list rune) (c : rune) (t : list rune) :
  forallb blank pre = true -> notSpace c = true ->
  SkipSpace_loop (pre ++ c :: t) = (None, mk_ss (c :: t) false).
Proof.
  intros Hpre Hc. induction pre as [|r pre IH]; simpl.
  - rewrite (notSpace_not_cr c Hc), (notSpace_not_nl c Hc),
      (notSpace_isSpace c Hc). reflexivity.
  - simpl in Hpre. apply andb_true_iff in Hpre as [Hr Hpre].
    apply blank_inv in Hr as [Hsp Hnl]. rewrite Hnl, Hsp. simpl.
    destruct (N.eqb r cr && _); apply IH, Hpre.
Qed.

(** A word is read up to the white space that follows it. *)
Lemma token_loop_word (w : list rune) (s : rune) (t : list rune) :
  forallb notSpace w = true -> isSpace s = true ->
  token_loop (w ++ s :: t) = (w, mk_ss (s :: t) false).
Proof.
  intros Hw Hs. induction w as [|c w IH]; simpl.
  - unfold notSpace. rewrite Hs. reflexivity.
  - simpl in Hw. apply andb_true_iff in Hw as [Hc Hw].
    rewrite Hc, (IH Hw). reflexivity.
Qed.

(** Blanks after the word are accepted up to the newline. *)
Lemma expectNewline_loop_newline (post rest : list rune) :
  forallb blank post = true ->
  expectNewline_loop (post ++ nl :: rest) = (None, mk_ss rest true).
Proof.
  intros Hpost. induction post as [|r post IH]; simpl; [reflexivity|].
  simpl in Hpost. apply andb_true_iff in Hpost as [Hr Hpost].
  apply blank_inv in Hr as [Hsp Hnl]. rewrite Hnl, Hsp. simpl.
  apply IH, Hpost.
Qed.

(** A further word after the blanks is the error "expected newline"; its
    first rune is consumed. *)
Lemma expectNewline_loop_extra (post : list rune) (c : rune) (tail : list rune) :
  forallb blank post = true -> notSpace c = true ->
  expectNewline_loop (post ++ c :: tail)
  = (Some errExpectedNewline, mk_ss tail false).
Proof.
  intros Hpost Hc. induction post as [|r post IH]; simpl.
  - rewrite (notSpace_not_nl c Hc), (notSpace_isSpace c Hc). reflexivity.
  - simpl in Hpost. apply andb_true_iff in Hpost as [Hr Hpost].
    apply blank_inv in Hr as [Hsp Hnl]. rewrite Hnl, Hsp. simpl.
    apply IH, Hpost.
Qed.

(** The conversion of the operand on a line that starts with blanks and a
    word. *)
Lemma convertString_word (pre w : list rune) (s : rune) (t : list rune) :
  forallb blank pre = true -> w <> [] -> forallb notSpace w = true ->
  isSpace s = true ->
  convertString (mk_ss (pre ++ w ++ s :: t) false)
  = ((None, w), mk_ss (s :: t) false).
Proof.
  intros Hpre Hne Hw Hs. destruct w as [|c w]; [contradiction|].
  pose proof Hw as Hcw. simpl in Hcw. apply andb_true_iff in Hcw as [Hc _].
  unfold convertString, SkipSpace. cbn [atEOF rs].
  change (pre ++ (c :: w) ++ s :: t)%list with (pre ++ c :: (w ++ s :: t))%list.
  rewrite (SkipSpace_loop_blanks pre c _ Hpre Hc).
  unfold notEOF, ReadRune, UnreadRune. cbn [atEOF rs].
  unfold token, SkipSpace. cbn [atEOF rs].
  pose proof (SkipSpace_loop_blanks [] c (w ++ s :: t) eq_refl Hc) as E.
  cbn [app] in E. rewrite E. cbn [atEOF rs].
  change (c :: w ++ s :: t)%list with ((c :: w) ++ s :: t)%list.
  rewrite (token_loop_word (c :: w) s t Hw Hs). reflexivity.
Qed.

(** A line holding one word between blanks is read without error, the
    operand is the word, and the line is consumed with its newline. *)
Lemma Scanln_one_word (pre w post rest : list rune) :
  forallb blank pre = true -> w <> [] -> forallb notSpace w = true ->
  forallb blank post = true ->
  Scanln [] (pre ++ w ++ post ++ nl :: rest) = ((w, None), rest).
Proof.
  intros Hpre Hne Hw Hpost. unfold Scanln.
  destruct post as [|s post].
  - simpl app at 3.
    rewrite (convertString_word pre w nl rest Hpre Hne Hw eq_refl).
    reflexivity.
  - simpl in Hpost. apply andb_true_iff in Hpost as [Hs Hpost].
    pose proof (blank_inv s Hs) as [Hsp Hnl].
    change ((s :: post) ++ nl :: rest)%list with (s :: (post ++ nl :: rest))%list.
    rewrite (convertString_word pre w s _ Hpre Hne Hw Hsp).
    unfold expectNewline. cbn [atEOF rs].
    change (s :: post ++ nl :: rest)%list with ((s :: post) ++ nl :: rest)%list.
    rewrite (expectNewline_loop_newline (s :: post) rest); [reflexivity|].
    simpl. rewrite Hs, Hpost. reflexivity.
Qed.

(** A line holding a word, blanks and the start of a further word: the
    operand is the first word, the error is "expected newline", and reading
    has stopped just after the first rune of the further word. *)
Lemma Scanln_two_words (w post : list rune) (c : rune) (tail : list rune) :
  w <> [] -> forallb notSpace w = true ->
  post <> [] -> forallb blank post = true -> notSpace c = true ->
  Scanln [] (w ++ post ++ c :: tail) = ((w, Some errExpectedNewline), tail).
Proof.
  intros Hne Hw Hpne Hpost Hc. unfold Scanln.
  destruct post as [|s post]; [contradiction|].
  pose proof Hpost as Hsp. simpl in Hsp. apply andb_true_iff in Hsp as [Hs _].
  apply blank_inv in Hs as [Hs _].
  change ((s :: post) ++ c :: tail)%list with (s :: (post ++ c :: tail))%list.
  pose proof (convertString_word [] w s (post ++ c :: tail) eq_refl Hne Hw Hs)
    as E.
  cbn [app] in E. rewrite E.
  unfold expectNewline. cbn [atEOF rs].
  change (s :: post ++ c :: tail)%list with ((s :: post) ++ c :: tail)%list.
  rewrite (expectNewline_loop_extra (s :: post) c tail Hpost Hc).
  reflexivity.
Qed.

End Scanning.

(** ** The console reader *)

Section Reader.

Lemma is_quit_spec (w : list rune) :
  is_quit w = true <-> w = runes "q" \/ w = runes "quit" \/ w = runes "exit".
Proof.
  unfold is_quit. rewrite !orb_true_iff, !runes_eqb_eq. tauto.
Qed.

Lemma is_quit_word (w : list rune) :
  is_quit w = true -> w <> [] /\ forallb notSpace w = true.
Proof.
  intros H. apply is_quit_spec in H as [-> | [-> | ->]];
    (split; [discriminate | reflexivity]).
Qed.

(** A pass that does not send hands the rest of the input to the next
    pass. *)
Lemma monitor_continue (n : nat) (stdin rest : list rune) :
  iteration stdin = mk_monitor (Reading rest) 0 ->
  _monitorKeyboard (S n) stdin = _monitorKeyboard n rest.
Proof.
  intros H. simpl. rewrite H. now destruct (_monitorKeyboard n rest).
Qed.

(** A pass sends exactly when it returns. *)
Lemma iteration_cases (stdin : list rune) :
  (exists rest, iteration stdin = mk_monitor (Reading rest) 0)
  \/ (exists rest, iteration stdin = mk_monitor (Returned rest) 1).
Proof.
  unfold iteration.
  destruct (Scanln [] stdin) as [[input [e|]] rest]; [eauto | ].
  destruct (is_quit input); eauto.
Qed.

Lemma monitor_cases (n : nat) (stdin : list rune) :
  (exists rest, _monitorKeyboard n stdin = mk_monitor (Reading rest) 0)
  \/ (exists rest, _monitorKeyboard n stdin = mk_monitor (Returned rest) 1).
Proof.
  revert stdin; induction n as [|n IH]; intros stdin; [left; simpl; eauto|].
  destruct (iteration_cases stdin) as [[rest H] | [rest H]].
  - rewrite (monitor_continue n _ _ H). apply IH.
  - right. exists rest. simpl. rewrite H. reflexivity.
Qed.

(** Once the goroutine has returned, more passes change nothing. *)
Lemma monitor_returned_stable (n k : nat) (stdin rest : list rune) :
  reader (_monitorKeyboard n stdin) = Returned rest ->
  _monitorKeyboard (n + k) stdin = _monitorKeyboard n stdin.
Proof.
  revert stdin; induction n as [|n IH]; intros stdin; [discriminate|].
  destruct (iteration_cases stdin) as [[r H] | [r H]].
  - rewrite Nat.add_succ_l, !(monitor_continue _ _ _ H). apply IH.
  - intros _. simpl. rewrite H. reflexivity.
Qed.

(** On a closed input every pass is an error and the loop goes on. *)
Lemma monitor_closed_input (n : nat) :
  _monitorKeyboard n [] = mk_monitor (Reading []) 0.
Proof.
  induction n as [|n IH]; [reflexivity|].
  now rewrite (monitor_continue n [] [] eq_refl).
Qed.

End Reader.

(** C4 (as amended): the comparison with the quit commands is exact and
    case-sensitive, but it is made on the word that [Scanln] takes from the
    line. A line holding one word, with any blanks before and after it,
    makes the reader send and return exactly when the word is "q", "quit"
    or "exit"; otherwise the reader goes on to the next line. So the lines
    "q", "quit", "exit" and also " q" and "quit " end the program, and "Q",
    "Quit " and "exitnow" do not. *)
Theorem C4_quit_word_is_matched_exactly (rest : list rune) :
  (forall pre w post : list rune,
      forallb blank pre = true -> w <> [] -> forallb notSpace w = true ->
      forallb blank post = true ->
      (is_quit w = true
       <-> w = runes "q" \/ w = runes "quit" \/ w = runes "exit")
      /\ iteration (pre ++ w ++ post ++ nl :: rest)
         = if is_quit w then mk_monitor (Returned rest) 1
           else mk_monitor (Reading rest) 0)
  /\ _monitorKeyboard 1 (line "q" ++ rest) = mk_monitor (Returned rest) 1
  /\ _monitorKeyboard 1 (line "quit" ++ rest) = mk_monitor (Returned rest) 1
  /\ _monitorKeyboard 1 (line "exit" ++ rest) = mk_monitor (Returned rest) 1
  /\ _monitorKeyboard 1 (line " q" ++ rest) = mk_monitor (Returned rest) 1
  /\ _monitorKeyboard 1 (line "quit " ++ rest) = mk_monitor (Returned rest) 1
  /\ _monitorKeyboard 1 (line "Q" ++ rest) = mk_monitor (Reading rest) 0
  /\ _monitorKeyboard 1 (line "Quit " ++ rest) = mk_monitor (Reading rest) 0
  /\ _monitorKeyboard 1 (line "exitnow" ++ rest) = mk_monitor (Reading rest) 0.
Proof.
  split; [| repeat split; reflexivity].
  intros pre w post Hpre Hne Hw Hpost. split; [apply is_quit_spec|].
  unfold iteration. rewrite (Scanln_one_word pre w post rest Hpre Hne Hw Hpost).
  destruct (is_quit w); reflexivity.
Qed.

(** The amended C4 at the word "quit" with a tab before it and a carriage
    return after it. *)
Lemma C4_quit_word_is_matched_exactly_witness :
  iteration ([9%N] ++ runes "quit" ++ [cr] ++ nl :: runes "later")
  = mk_monitor (Returned (runes "later")) 1.
Proof.
  exact (proj2 (proj1 (C4_quit_word_is_matched_exactly (runes "later"))
                  [9%N] (runes "quit") [cr] eq_refl
                  ltac:(discriminate) eq_refl eq_refl)).
Defined.

(** C4 as stated fails: the line "q " (a "q" and a space) is none of the
    three quit commands, yet the reader sends on the quit channel and
    returns. *)
Lemma C4_counterexample :
  "q " <> "q" /\ "q " <> "quit" /\ "q " <> "exit"
  /\ _monitorKeyboard 1 (line "q ") = mk_monitor (Returned []) 1.
Proof.
  repeat split; try discriminate.
Qed.

(** C8: the reader sends at most once, and exactly when it returns; once
    returned it reads nothing more, however long it is left; a pass whose
    read fails, whatever the error, sends nothing and leaves the reader in
    its loop; so does an empty line; and on a closed input the reader stays
    in its loop for ever, never sending. *)
Theorem C8_reader_sends_at_most_once (stdin : list rune) (n : nat) :
  sent (_monitorKeyboard n stdin) <= 1
  /\ (sent (_monitorKeyboard n stdin) = 1
      <-> exists rest, reader (_monitorKeyboard n stdin) = Returned rest)
  /\ (forall rest k,
         reader (_monitorKeyboard n stdin) = Returned rest ->
         _monitorKeyboard (n + k) stdin = _monitorKeyboard n stdin)
  /\ (forall input e rest,
         Scanln [] stdin = ((input, Some e), rest) ->
         iteration stdin = mk_monitor (Reading rest) 0
         /\ _monitorKeyboard (S n) stdin = _monitorKeyboard n rest)
  /\ iteration (nl :: stdin) = mk_monitor (Reading stdin) 0
  /\ _monitorKeyboard n [] = mk_monitor (Reading []) 0.
Proof.
  repeat split.
  - destruct (monitor_cases n stdin) as [[r ->] | [r ->]]; simpl; lia.
  - destruct (monitor_cases n stdin) as [[r ->] | [r ->]]; simpl;
      [discriminate | eauto].
  - destruct (monitor_cases n stdin) as [[r ->] | [r ->]]; simpl;
      [intros [? ?]; discriminate | reflexivity].
  - intros rest k H. exact (monitor_returned_stable n k stdin rest H).
  - unfold iteration. rewrite H. reflexivity.
  - apply monitor_continue. unfold iteration. rewrite H. reflexivity.
  - apply monitor_closed_input.
Qed.

(** C8 on the input "q q", "q": the first read fails and is passed over,
    the third pass sends, and seven more passes change nothing. *)
Lemma C8_reader_sends_at_most_once_witness :
  iteration (line "q q" ++ line "q") = mk_monitor (Reading (nl :: line "q")) 0
  /\ _monitorKeyboard (3 + 7) (line "q q" ++ line "q")
     = mk_monitor (Returned []) 1.
Proof.
  split.
  - exact (proj1 (proj1 (proj2 (proj2 (proj2
             (C8_reader_sends_at_most_once (line "q q" ++ line "q") 0))))
             (runes "q") errExpectedNewline (nl :: line "q") eq_refl)).
  - exact (eq_trans
             (proj1 (proj2 (proj2
                (C8_reader_sends_at_most_once (line "q q" ++ line "q") 3)))
                [] 7 eq_refl)
             eq_refl).
Defined.

(** On a line that holds a quit command, blanks and a further word, the
    read that takes the quit command fails with "expected newline" and that
    pass sends nothing; the next pass starts after the first character of
    the further word. *)
Lemma extra_word_discards_the_pass (w post : list rune) (c : rune)
    (tail : list rune) :
  is_quit w = true -> post <> [] -> forallb blank post = true ->
  notSpace c = true ->
  Scanln [] (w ++ post ++ c :: tail) = ((w, Some errExpectedNewline), tail)
  /\ iteration (w ++ post ++ c :: tail) = mk_monitor (Reading tail) 0
  /\ forall n, _monitorKeyboard (S n) (w ++ post ++ c :: tail)
               = _monitorKeyboard n tail.
Proof.
  intros Hq Hne Hpost Hc.
  destruct (is_quit_word w Hq) as [Hw Hns].
  pose proof (Scanln_two_words w post c tail Hw Hns Hne Hpost Hc) as E.
  assert (I : iteration (w ++ post ++ c :: tail) = mk_monitor (Reading tail) 0)
    by (unfold iteration; rewrite E; reflexivity).
  repeat split; [exact E | exact I |].
  intros n. apply monitor_continue, I.
Qed.

(** C10 (the code falls short of it): a line that holds a quit command and
    a further word must not end the program. For "q q" and "quit now" it
    does not. For "q xq" it does: the read that takes "q" fails on the "x"
    with "expected newline" and the pass is discarded, as it should be, but
    the read has consumed the "x" and left "q" and the newline of the same
    line unread, against the comment that says a line is read; the next pass
    reads that "q", sends on the quit channel and returns. *)
Theorem C10_line_q_xq_ends_the_program (rest : list rune) :
  Scanln [] (line "q xq" ++ rest)
  = ((runes "q", Some errExpectedNewline), line "q" ++ rest)
  /\ iteration (line "q xq" ++ rest) = mk_monitor (Reading (line "q" ++ rest)) 0
  /\ iteration (line "q" ++ rest) = mk_monitor (Returned rest) 1
  /\ _monitorKeyboard 2 (line "q xq" ++ rest) = mk_monitor (Returned rest) 1
  /\ _monitorKeyboard 2 (line "q q" ++ rest) = mk_monitor (Reading rest) 0
  /\ _monitorKeyboard 2 (line "quit now" ++ rest) = mk_monitor (Reading rest) 0.
Proof.
  repeat split; reflexivity.
Qed.

(** ** The strategy and the event loop *)

Section Loop.

Lemma printed_app (a b : list Action) :
  printed (a ++ b) = printed a ++ printed b.
Proof.
  induction a as [|[f|c|t] a IH]; simpl; rewrite ?IH; reflexivity.
Qed.

Lemma commands_app (a b : list Action) :
  commands (a ++ b) = commands a ++ commands b.
Proof.
  induction a as [|[f|c|t] a IH]; simpl; rewrite ?IH; reflexivity.
Qed.

Lemma lookups_app (a b : list Action) :
  lookups (a ++ b) = lookups a ++ lookups b.
Proof.
  induction a as [|[f|c|t] a IH]; simpl; rewrite ?IH; reflexivity.
Qed.

Lemma commands_prints (lines : list string) : commands (map Print lines) = [].
Proof. induction lines; simpl; auto. Qed.

Lemma lookups_prints (lines : list string) : lookups (map Print lines) = [].
Proof. induction lines; simpl; auto. Qed.

(** Every report is made of prints alone, one or two of them. *)
Lemma report_prints (GOOS : string) (h : Host) (err : option string) :
  exists lines, lines <> [] /\ report GOOS h err = map Print lines.
Proof.
  unfold report. destruct err as [e|]; [destruct (GOOS =? "darwin")%string|].
  - eexists (_ :: _ :: nil). split; [discriminate | reflexivity].
  - eexists (_ :: nil). split; [discriminate | reflexivity].
  - eexists (_ :: nil). split; [discriminate | reflexivity].
Qed.

(** An invocation on darwin. *)
Lemma simulate_darwin (h : Host) :
  _simulateActivity "darwin" h
  = let cmd := if LookPath h "cliclick"
               then exec_Command "cliclick" ["m:+1,+1"; "w:10"; "m:-1,-1"]
               else exec_Command "osascript" ["-e"; darwin_script] in
    DoLookPath "cliclick" :: DoRun cmd :: report "darwin" h (Run h cmd).
Proof.
  unfold _simulateActivity, choose. simpl.
  destruct (LookPath h "cliclick"); reflexivity.
Qed.

(** An invocation on windows. *)
Lemma simulate_windows (h : Host) :
  _simulateActivity "windows" h
  = let cmd := exec_Command "powershell" ["-Command"; windows_script] in
    DoRun cmd :: report "windows" h (Run h cmd).
Proof. reflexivity. Qed.

(** Ticks received one after the other: the invocations follow one
    another in the order of the ticks, each complete before the next event
    is taken. *)
Lemma loop_ticks (GOOS : string) (hs : list Host) (events : list Event) :
  loop GOOS (map tickerC hs ++ events)
  = mk_process
      (flat_map (_simulateActivity GOOS) hs ++ actions (loop GOOS events))
      (length hs + invocations (loop GOOS events))
      (status (loop GOOS events)).
Proof.
  induction hs as [|h hs IH]; simpl.
  - now destruct (loop GOOS events).
  - rewrite IH. simpl. rewrite <- app_assoc. reflexivity.
Qed.


(** On a supported platform [main] passes the platform check. *)
Lemma main_supported (b : Build) (GOOS GOARCH : string) (events : list Event) :
  GOOS = "darwin" \/ GOOS = "windows" ->
  main b GOOS GOARCH events
  = mk_process
      (actions (main b GOOS GOARCH []) ++ actions (loop GOOS events))
      (invocations (loop GOOS events))
      (status (loop GOOS events)).
Proof.
  intros [-> | ->]; unfold main; simpl; reflexivity.
Qed.

Lemma mentions_app (needle a text : string) :
  mentions needle text = true -> mentions needle (a ++ text)%string = true.
Proof.
  intros H. induction a as [|c a IH]; simpl; [exact H|].
  rewrite IH. apply orb_true_r.
Qed.

End Loop.

(** C1: on a platform that is neither "darwin" nor "windows", [main]
    prints the banner and then the error line that names the platform,
    exits with status 1, and never calls [_simulateActivity], looks up or
    runs anything, whatever events are waiting; on "darwin" and on
    "windows" it does not exit at the check: it reaches the loop, where it
    waits when no event has come and invokes the strategy on a tick. *)
Theorem C1_unsupported_platform_exits_before_loop
    (b : Build) (GOOS GOARCH : string) (events : list Event) :
  (GOOS <> "darwin" -> GOOS <> "windows" ->
   main b GOOS GOARCH events
   = mk_process
       (banner b GOOS GOARCH
        ++ [Print ("Error: This tool supports macOS and Windows only (detected: "
                   ++ GOOS ++ ")" ++ LF)%string])
       0 (Exited 1)
   /\ commands (actions (main b GOOS GOARCH events)) = []
   /\ lookups (actions (main b GOOS GOARCH events)) = [])
  /\ (GOOS = "darwin" \/ GOOS = "windows" ->
      status (main b GOOS GOARCH []) = Running
      /\ status (main b GOOS GOARCH events) = status (loop GOOS events)
      /\ invocations (main b GOOS GOARCH events)
         = invocations (loop GOOS events)
      /\ forall h, invocations (main b GOOS GOARCH (tickerC h :: events))
                   = S (invocations (loop GOOS events))).
Proof.
  split.
  - intros Hd Hw. apply String.eqb_neq in Hd, Hw.
    unfold main, platform_check. rewrite Hd, Hw. cbn [actions].
    split; [reflexivity|]. rewrite commands_app, lookups_app.
    split; reflexivity.
  - intros H. rewrite (main_supported b GOOS GOARCH events H).
    rewrite (main_supported b GOOS GOARCH [] H).
    cbn [status invocations loop]. repeat split.
    intros h. rewrite (main_supported b GOOS GOARCH _ H). reflexivity.
Qed.

(** C1 on "linux", with a tick and a signal waiting, and on "darwin". *)
Lemma C1_unsupported_platform_exits_before_loop_witness :
  status (main unstamped "linux" "amd64" [tickerC equipped; sigChan])
  = Exited 1
  /\ status (main unstamped "darwin" "arm64" []) = Running.
Proof.
  split.
  - exact (f_equal status
             (proj1 (proj1 (C1_unsupported_platform_exits_before_loop
                              unstamped "linux" "amd64"
                              [tickerC equipped; sigChan])
                       ltac:(discriminate) ltac:(discriminate)))).
  - exact (proj1 (proj2 (C1_unsupported_platform_exits_before_loop
                           unstamped "darwin" "arm64" [])
                    (or_introl eq_refl))).
Defined.




(** C5: on darwin every invocation looks "cliclick" up once; when it is
    found the one command run is cliclick with the arguments "m:+1,+1",
    "w:10", "m:-1,-1"; when it is not, the one command run is osascript
    with "-e" and the script whose statements read the mouse position,
    set it one unit further on both axes, delay 0.01 s, and set it back. *)
Theorem C5_darwin_helper_or_fallback (h : Host) :
  lookups (_simulateActivity "darwin" h) = ["cliclick"%string]
  /\ (LookPath h "cliclick" = true ->
      commands (_simulateActivity "darwin" h)
      = [exec_Command "cliclick" ["m:+1,+1"; "w:10"; "m:-1,-1"]%string])
  /\ (LookPath h "cliclick" = false ->
      commands (_simulateActivity "darwin" h)
      = [exec_Command "osascript" ["-e"%string; darwin_script]])
  /\ statements darwin_script
     = [ ("tell application " ++ DQ ++ "System Events" ++ DQ);
         "set currentPos to (get position of mouse)";
         "set mouseX to item 1 of currentPos";
         "set mouseY to item 2 of currentPos";
         "set mouse position to {mouseX + 1, mouseY + 1}";
         "delay 0.01";
         "set mouse position to {mouseX, mouseY}";
         "end tell" ]%string.
Proof.
  rewrite simulate_darwin. cbv zeta.
  destruct (report_prints "darwin" h
              (Run h (if LookPath h "cliclick"
                      then exec_Command "cliclick"
                             ["m:+1,+1"; "w:10"; "m:-1,-1"]%string
                      else exec_Command "osascript"
                             ["-e"%string; darwin_script])))
    as (lines & _ & ->).
  cbn [lookups commands]. rewrite lookups_prints, commands_prints.
  repeat split; try (intros ->; reflexivity).
Qed.

(** C5 with the helper present and with the helper absent. *)
Lemma C5_darwin_helper_or_fallback_witness :
  commands (_simulateActivity "darwin" equipped)
  = [exec_Command "cliclick" ["m:+1,+1"; "w:10"; "m:-1,-1"]%string]
  /\ commands (_simulateActivity "darwin" bare)
     = [exec_Command "osascript" ["-e"%string; darwin_script]].
Proof.
  split.
  - exact (proj1 (proj2 (C5_darwin_helper_or_fallback equipped)) eq_refl).
  - exact (proj1 (proj2 (proj2 (C5_darwin_helper_or_fallback bare))) eq_refl).
Defined.

(** C6: on windows every invocation looks nothing up and runs one
    command, powershell with "-Command" and the script that declares
    GetCursorPos and SetCursorPos of user32.dll, gets the cursor position,
    sets it one unit further on both axes, sleeps 10 milliseconds, and sets
    it back. *)
Theorem C6_windows_powershell_script (h : Host) :
  lookups (_simulateActivity "windows" h) = []
  /\ commands (_simulateActivity "windows" h)
     = [exec_Command "powershell" ["-Command"%string; windows_script]]
  /\ statements windows_script
     = [ "Add-Type -TypeDefinition '";
         "using System;";
         "using System.Runtime.InteropServices;";
         "public class Win32 {";
         ("[DllImport(" ++ DQ ++ "user32.dll" ++ DQ ++ ")]");
         "public static extern bool GetCursorPos(out POINT lpPoint);";
         ("[DllImport(" ++ DQ ++ "user32.dll" ++ DQ ++ ")]");
         "public static extern bool SetCursorPos(int x, int y);";
         "public struct POINT { public int x; public int y; }";
         "}";
         "';";
         "$pos = New-Object Win32+POINT;";
         "[Win32]::GetCursorPos([ref]$pos);";
         "[Win32]::SetCursorPos($pos.x + 1, $pos.y + 1);";
         "Start-Sleep -Milliseconds 10;";
         "[Win32]::SetCursorPos($pos.x, $pos.y);" ]%string.
Proof.
  rewrite simulate_windows. cbv zeta.
  destruct (report_prints "windows" h
              (Run h (exec_Command "powershell"
                        ["-Command"%string; windows_script])))
    as (lines & _ & ->).
  cbn [lookups commands]. rewrite lookups_prints, commands_prints.
  repeat split.
Qed.

(** C7: over any number of ticks the actions of the loop are the
    invocations placed one after the other, each a function of the
    platform and of what the host answers during that invocation alone;
    with the same answers [n] times, the same actions come [n] times; on
    darwin "cliclick" is looked up once in every invocation; and when the
    helper is absent and the fallback fails at every tick, every tick runs
    the fallback again and prints the same two lines, stamped with its own
    time. *)
Theorem C7_invocations_are_independent (GOOS : string) (hs : list Host) :
  actions (loop GOOS (map tickerC hs)) = flat_map (_simulateActivity GOOS) hs
  /\ (forall h n,
         actions (loop GOOS (map tickerC (repeat h n)))
         = concat (repeat (_simulateActivity GOOS h) n))
  /\ lookups (actions (loop "darwin" (map tickerC hs)))
     = repeat "cliclick"%string (length hs)
  /\ (forall e,
         Forall (fun h =>
                   LookPath h "cliclick" = false
                   /\ Run h (exec_Command "osascript"
                               ["-e"%string; darwin_script]) = Some e) hs ->
         commands (actions (loop "darwin" (map tickerC hs)))
         = repeat (exec_Command "osascript" ["-e"%string; darwin_script])
                  (length hs)
         /\ printed (actions (loop "darwin" (map tickerC hs)))
            = flat_map
                (fun h =>
                   [ ("[" ++ Format (Now h)
                      ++ "] Warning: Failed to simulate mouse activity: "
                      ++ e ++ LF)%string;
                     ("[" ++ Format (Now h)
                      ++ "] Troubleshooting: Try 'brew install cliclick' or grant accessibility permissions"
                      ++ LF)%string ])
                hs).
Proof.
  assert (A : forall G l, actions (loop G (map tickerC l))
                          = flat_map (_simulateActivity G) l).
  { intros G l. pose proof (loop_ticks G l []) as E.
    rewrite app_nil_r in E. rewrite E. cbn [actions loop].
    apply app_nil_r. }
  split; [apply A|]. split; [|split].
  - intros h n. rewrite A. induction n as [|n IH]; simpl; [|rewrite IH];
      reflexivity.
  - rewrite A. induction hs as [|h hs IH]; [reflexivity|].
    cbn [flat_map length repeat]. rewrite lookups_app, IH, simulate_darwin.
    cbv zeta.
    destruct (report_prints "darwin" h
                (Run h (if LookPath h "cliclick"
                        then exec_Command "cliclick"
                               ["m:+1,+1"; "w:10"; "m:-1,-1"]%string
                        else exec_Command "osascript"
                               ["-e"%string; darwin_script])))
      as (lines & _ & ->).
    cbn [lookups]. rewrite lookups_prints. reflexivity.
  - intros e F. rewrite A. induction F as [|h hs [Hl Hr] F IH];
      [split; reflexivity|].
    destruct IH as [IHc IHp].
    cbn [flat_map length repeat]. rewrite commands_app, printed_app, IHc, IHp.
    rewrite simulate_darwin, Hl. cbv zeta. rewrite Hr.
    split; reflexivity.
Qed.

(** C7 on darwin: three ticks without the helper and with a failing
    fallback run osascript three times. *)
Lemma C7_invocations_are_independent_witness :
  commands (actions (loop "darwin" (map tickerC [failing; failing; failing])))
  = repeat (exec_Command "osascript" ["-e"%string; darwin_script]) 3.
Proof.
  exact (proj1 (proj2 (proj2 (proj2
           (C7_invocations_are_independent "darwin"
              [failing; failing; failing])))
           "exit status 1"%string
           (Forall_cons failing (conj eq_refl eq_refl)
              (Forall_cons failing (conj eq_refl eq_refl)
                 (Forall_cons failing (conj eq_refl eq_refl)
                    (Forall_nil _)))))).
Defined.

(** C9 (as amended): when the command fails, darwin prints two lines
    stamped with the same time, the warning with the error and the
    troubleshooting line that names the remedies (install cliclick, grant
    the accessibility permission); windows prints the stamped warning with
    the error and nothing else; when the command succeeds, either platform
    prints the single stamped line "Simulated mouse activity". *)
Theorem C9_reports_of_an_invocation (h : Host) (cmd : Cmd) :
  (forall e,
      chosen "darwin" h = Some cmd -> Run h cmd = Some e ->
      printed (_simulateActivity "darwin" h)
      = [ ("[" ++ Format (Now h)
           ++ "] Warning: Failed to simulate mouse activity: " ++ e ++ LF)%string;
          ("[" ++ Format (Now h)
           ++ "] Troubleshooting: Try 'brew install cliclick' or grant accessibility permissions"
           ++ LF)%string ]
      /\ existsb names_remedy (printed (_simulateActivity "darwin" h)) = true)
  /\ (forall e,
         chosen "windows" h = Some cmd -> Run h cmd = Some e ->
         printed (_simulateActivity "windows" h)
         = [ ("[" ++ Format (Now h)
              ++ "] Warning: Failed to simulate mouse activity: " ++ e
              ++ LF)%string ])
  /\ (forall GOOS,
         GOOS = "darwin" \/ GOOS = "windows" ->
         chosen GOOS h = Some cmd -> Run h cmd = None ->
         printed (_simulateActivity GOOS h)
         = [ ("[" ++ Format (Now h) ++ "] Simulated mouse activity"
              ++ LF)%string ]).
Proof.
  assert (D : forall c, chosen "darwin" h = Some c ->
                        printed (_simulateActivity "darwin" h)
                        = printed (report "darwin" h (Run h c))).
  { intros c Hc. rewrite simulate_darwin. unfold chosen, choose in Hc.
    cbn [String.eqb Ascii.eqb Bool.eqb] in Hc. cbv zeta.
    destruct (LookPath h "cliclick"); cbn [snd] in Hc; injection Hc as <-;
      reflexivity. }
  assert (W : forall c, chosen "windows" h = Some c ->
                        printed (_simulateActivity "windows" h)
                        = printed (report "windows" h (Run h c))).
  { intros c Hc. rewrite simulate_windows. injection Hc as <-. reflexivity. }
  split; [|split].
  - intros e Hc Hr. rewrite (D cmd Hc), Hr. split; [reflexivity|].
    cbn [report String.eqb Ascii.eqb Bool.eqb printed existsb].
    apply orb_true_iff. right. apply orb_true_iff. left.
    unfold names_remedy. apply orb_true_iff. left.
    apply mentions_app, mentions_app. reflexivity.
  - intros e Hc Hr. rewrite (W cmd Hc), Hr. reflexivity.
  - intros GOOS [-> | ->] Hc Hr;
      [rewrite (D cmd Hc) | rewrite (W cmd Hc)]; rewrite Hr; reflexivity.
Qed.

(** The amended C9 on darwin without the helper, the fallback failing. *)
Lemma C9_reports_of_an_invocation_witness :
  printed (_simulateActivity "darwin" failing)
  = [ ("[14:30:15] Warning: Failed to simulate mouse activity: exit status 1"
       ++ LF)%string;
      ("[14:30:15] Troubleshooting: Try 'brew install cliclick' or grant accessibility permissions"
       ++ LF)%string ].
Proof.
  exact (proj1 (proj1 (C9_reports_of_an_invocation failing
                   (exec_Command "osascript" ["-e"%string; darwin_script]))
                 "exit status 1"%string eq_refl eq_refl)).
Defined.

(** C9 as stated fails on windows: when powershell fails, the one line
    printed is the stamped warning with the text of the error; no line
    names a remedy. *)
Lemma C9_counterexample :
  Run failing (exec_Command "powershell" ["-Command"%string; windows_script])
  = Some "exit status 1"%string
  /\ printed (_simulateActivity "windows" failing)
     = [ ("[14:30:15] Warning: Failed to simulate mouse activity: exit status 1"
          ++ LF)%string ]
  /\ existsb names_remedy (printed (_simulateActivity "windows" failing))
     = false.
Proof.
  repeat split.
Qed.

(** ** Every read, classified *)

Section Classified.

(** The longest prefix on which a test holds. *)
Lemma span_prefix (p : rune -> bool) (l : list rune) :
  exists a b, l = a ++ b /\ forallb p a = true
              /\ (b = [] \/ exists x b', b = x :: b' /\ p x = false).
Proof.
  induction l as [|x l (a & b & E & Ha & Hb)].
  - exists [], []. auto.
  - destruct (p x) eqn:Px.
    + exists (x :: a), b. subst l. simpl. rewrite Px, Ha. auto.
    + exists [], (x :: l). simpl. split; [reflexivity|].
      split; [reflexivity|]. right. eauto.
Qed.

Lemma not_blank_inv (x : rune) :
  blank x = false -> x = nl \/ notSpace x = true.
Proof.
  unfold blank, notSpace. destruct (N.eqb_spec x nl) as [->|]; [auto|].
  destruct (isSpace x); simpl; [discriminate | auto].
Qed.

Lemma SkipSpace_loop_end (pre : list rune) :
  forallb blank pre = true -> SkipSpace_loop pre = (None, mk_ss [] true).
Proof.
  intros H. induction pre as [|r pre IH]; simpl; [reflexivity|].
  simpl in H. apply andb_true_iff in H as [Hr H].
  apply blank_inv in Hr as [Hsp Hnl]. rewrite Hnl, Hsp. simpl.
  destruct (N.eqb r cr && _); apply IH, H.
Qed.

Lemma SkipSpace_loop_newline (pre rest : list rune) :
  forallb blank pre = true ->
  SkipSpace_loop (pre ++ nl :: rest)
  = (Some errUnexpectedNewline, mk_ss rest true).
Proof.
  intros H. induction pre as [|r pre IH]; simpl; [reflexivity|].
  simpl in H. apply andb_true_iff in H as [Hr H].
  apply blank_inv in Hr as [Hsp Hnl]. rewrite Hnl, Hsp. simpl.
  destruct (N.eqb r cr && _); apply IH, H.
Qed.

Lemma token_loop_end (w : list rune) :
  forallb notSpace w = true -> token_loop w = (w, mk_ss [] true).
Proof.
  intros H. induction w as [|c w IH]; simpl; [reflexivity|].
  simpl in H. apply andb_true_iff in H as [Hc H].
  rewrite Hc, (IH H). reflexivity.
Qed.

Lemma expectNewline_loop_end (post : list rune) :
  forallb blank post = true ->
  expectNewline_loop post = (None, mk_ss [] true).
Proof.
  intros H. induction post as [|r post IH]; simpl; [reflexivity|].
  simpl in H. apply andb_true_iff in H as [Hr H].
  apply blank_inv in Hr as [Hsp Hnl]. rewrite Hnl, Hsp. simpl.
  apply IH, H.
Qed.

(** The conversion of a word that runs to the end of input. *)
Lemma convertString_last_word (pre w : list rune) :
  forallb blank pre = true -> w <> [] -> forallb notSpace w = true ->
  convertString (mk_ss (pre ++ w) false) = ((None, w), mk_ss [] true).
Proof.
  intros Hpre Hne Hw. destruct w as [|c w]; [contradiction|].
  pose proof Hw as Hcw. simpl in Hcw. apply andb_true_iff in Hcw as [Hc _].
  unfold convertString, SkipSpace. cbn [atEOF rs].
  rewrite (SkipSpace_loop_blanks pre c w Hpre Hc).
  unfold notEOF, ReadRune, UnreadRune. cbn [atEOF rs].
  unfold token, SkipSpace. cbn [atEOF rs].
  pose proof (SkipSpace_loop_blanks [] c w eq_refl Hc) as E.
  cbn [app] in E. rewrite E. cbn [atEOF rs].
  rewrite (token_loop_end (c :: w) Hw). reflexivity.
Qed.

(** What [Read] says, [Scanln] does. *)
Lemma Read_Scanln (stdin : list rune) (r : list rune * option scanError)
    (rest : list rune) :
  Read stdin r rest -> Scanln [] stdin = (r, rest).
Proof.
  intros H. destruct H as
      [pre Hpre | pre rest Hpre | pre w post Hpre Hne Hw Hpost
       | pre w post rest Hpre Hne Hw Hpost
       | pre w post c tail Hpre Hne Hw Hpne Hpost Hc].
  - unfold Scanln, convertString, SkipSpace. cbn [atEOF rs].
    rewrite (SkipSpace_loop_end pre Hpre). reflexivity.
  - unfold Scanln, convertString, SkipSpace. cbn [atEOF rs].
    rewrite (SkipSpace_loop_newline pre rest Hpre). reflexivity.
  - unfold Scanln. destruct post as [|s post].
    + rewrite app_nil_r, (convertString_last_word pre w Hpre Hne Hw).
      reflexivity.
    + pose proof Hpost as Hs. simpl in Hs. apply andb_true_iff in Hs as [Hs _].
      apply blank_inv in Hs as [Hs _].
      rewrite (convertString_word pre w s post Hpre Hne Hw Hs).
      unfold expectNewline. cbn [atEOF rs].
      rewrite (expectNewline_loop_end (s :: post) Hpost). reflexivity.
  - apply Scanln_one_word; assumption.
  - unfold Scanln. destruct post as [|s post]; [contradiction|].
    pose proof Hpost as Hs. simpl in Hs. apply andb_true_iff in Hs as [Hs _].
    apply blank_inv in Hs as [Hs _].
    change ((s :: post) ++ c :: tail) with (s :: (post ++ c :: tail)).
    rewrite (convertString_word pre w s _ Hpre Hne Hw Hs).
    unfold expectNewline. cbn [atEOF rs].
    change (s :: post ++ c :: tail) with ((s :: post) ++ c :: tail).
    rewrite (expectNewline_loop_extra (s :: post) c tail Hpost Hc).
    reflexivity.
Qed.

(** Every input has one of the five shapes. *)
Lemma Read_total (stdin : list rune) : exists r rest, Read stdin r rest.
Proof.
  destruct (span_prefix blank stdin) as (pre & b & -> & Hpre & Hb).
  destruct Hb as [-> | (x & b' & -> & Hx)].
  { rewrite app_nil_r. eexists _, _. apply ReadEnd, Hpre. }
  destruct (not_blank_inv x Hx) as [-> | Hc].
  { eexists _, _. apply ReadBlankLine, Hpre. }
  destruct (span_prefix notSpace b') as (w' & b2 & -> & Hw' & Hb2).
  assert (Hw : forallb notSpace (x :: w') = true)
    by (simpl; rewrite Hc, Hw'; reflexivity).
  change (pre ++ x :: w' ++ b2) with (pre ++ (x :: w') ++ b2).
  assert (Hne : x :: w' <> []) by discriminate.
  destruct (span_prefix blank b2) as (post & b3 & -> & Hpost & Hb3).
  destruct Hb3 as [-> | (y & b3' & -> & Hy)].
  { rewrite app_nil_r. eexists _, _. apply ReadLastWord; assumption. }
  destruct (not_blank_inv y Hy) as [-> | Hy'].
  { eexists _, _. apply ReadWord; assumption. }
  eexists _, _. apply ReadTwoWords; try assumption.
  destruct post as [|s post]; [|discriminate].
  exfalso. destruct Hb2 as [E | (z & b2' & E & Hz)]; [discriminate|].
  simpl in E. injection E as <- _. rewrite Hy' in Hz. discriminate.
Qed.

(** What [Scanln] does, [Read] says. *)
Lemma Scanln_Read (stdin input : list rune) (err : option scanError)
    (rest : list rune) :
  Scanln [] stdin = ((input, err), rest) -> Read stdin (input, err) rest.
Proof.
  intros E. destruct (Read_total stdin) as (r & rest' & H).
  pose proof (Read_Scanln stdin r rest' H) as E'.
  rewrite E in E'. injection E' as <- <-. exact H.
Qed.

End Classified.

(** X1: a call of [Scanln] on the reader's operand does exactly what the
    shape of the input says: end of input after blanks, a newline after
    blanks, one word up to the end of input, one word up to the newline, or
    one word followed by the start of another. *)
Theorem X1_read_follows_the_shape_of_the_input
    (stdin input : list rune) (err : option scanError) (rest : list rune) :
  Scanln [] stdin = ((input, err), rest) <-> Read stdin (input, err) rest.
Proof.
  split; [apply Scanln_Read | apply Read_Scanln].
Qed.

Section Consumption.

Lemma blank_no_newline (l : list rune) :
  forallb blank l = true -> ~ In nl l.
Proof.
  intros H Hin. rewrite forallb_forall in H. specialize (H nl Hin).
  discriminate H.
Qed.

Lemma word_no_newline (l : list rune) :
  forallb notSpace l = true -> ~ In nl l.
Proof.
  intros H Hin. rewrite forallb_forall in H. specialize (H nl Hin).
  discriminate H.
Qed.

Lemma unread_iteration (stdin : list rune) :
  unread (iteration stdin) = snd (Scanln [] stdin).
Proof.
  unfold iteration. destruct (Scanln [] stdin) as [[input [e|]] rest];
    [reflexivity|]. destruct (is_quit input); reflexivity.
Qed.

(** What a read takes from the input: runes without a newline, and then
    possibly the newline. *)
Lemma Read_consumed (stdin : list rune) (r : list rune * option scanError)
    (rest : list rune) :
  Read stdin r rest ->
  exists body, ~ In nl body
               /\ (stdin = body ++ rest \/ stdin = body ++ nl :: rest)
               /\ (stdin <> [] -> length rest < length stdin).
Proof.
  intros H. destruct H as
      [pre Hpre | pre rest Hpre | pre w post Hpre Hne Hw Hpost
       | pre w post rest Hpre Hne Hw Hpost
       | pre w post c tail Hpre Hne Hw Hpne Hpost Hc].
  - exists pre. split; [apply blank_no_newline, Hpre|].
    split; [left; symmetry; apply app_nil_r|].
    destruct pre; [contradiction | simpl; lia].
  - exists pre. split; [apply blank_no_newline, Hpre|].
    split; [right; reflexivity|]. rewrite length_app. simpl. lia.
  - exists (pre ++ w ++ post). split.
    + rewrite !in_app_iff. intros [Hi | [Hi | Hi]];
        [ exact (blank_no_newline _ Hpre Hi)
        | exact (word_no_newline _ Hw Hi)
        | exact (blank_no_newline _ Hpost Hi) ].
    + split; [left; symmetry; apply app_nil_r|].
      destruct w; [contradiction|]. rewrite !length_app. simpl. lia.
  - exists (pre ++ w ++ post). split.
    + rewrite !in_app_iff. intros [Hi | [Hi | Hi]];
        [ exact (blank_no_newline _ Hpre Hi)
        | exact (word_no_newline _ Hw Hi)
        | exact (blank_no_newline _ Hpost Hi) ].
    + split; [right; rewrite <- !app_assoc; reflexivity|].
      rewrite !length_app. simpl. lia.
  - exists (pre ++ w ++ post ++ [c]). split.
    + rewrite !in_app_iff. intros [Hi | [Hi | [Hi | Hi]]];
        [ exact (blank_no_newline _ Hpre Hi)
        | exact (word_no_newline _ Hw Hi)
        | exact (blank_no_newline _ Hpost Hi)
        | ].
      destruct Hi as [-> | []]. discriminate Hc.
    + split; [left; rewrite <- !app_assoc; reflexivity|].
      rewrite !length_app. simpl. lia.
Qed.

Lemma iteration_consumed (stdin : list rune) :
  exists body, ~ In nl body
               /\ (stdin = body ++ unread (iteration stdin)
                   \/ stdin = body ++ nl :: unread (iteration stdin))
               /\ (stdin <> [] ->
                   length (unread (iteration stdin)) < length stdin).
Proof.
  rewrite unread_iteration.
  destruct (Scanln [] stdin) as [[input err] rest] eqn:E.
  apply Scanln_Read in E.
  exact (Read_consumed _ _ _ E).
Qed.

(** Passes add up. *)
Lemma monitor_add (n k : nat) (stdin rest : list rune) :
  _monitorKeyboard n stdin = mk_monitor (Reading rest) 0 ->
  _monitorKeyboard (n + k) stdin = _monitorKeyboard k rest.
Proof.
  revert stdin; induction n as [|n IH]; intros stdin H.
  - simpl in H. injection H as ->. reflexivity.
  - destruct (iteration_cases stdin) as [[r Hi] | [r Hi]].
    + rewrite Nat.add_succ_l, (monitor_continue _ _ _ Hi).
      rewrite (monitor_continue _ _ _ Hi) in H. apply IH, H.
    + simpl in H. rewrite Hi in H. discriminate H.
Qed.

(** A reader still in its loop after as many passes as there are runes
    has nothing left to read. *)
Lemma monitor_exhausts (n : nat) (stdin rest : list rune) :
  length stdin <= n ->
  reader (_monitorKeyboard n stdin) = Reading rest -> rest = [].
Proof.
  revert stdin; induction n as [|n IH]; intros stdin Hlen H.
  - destruct stdin; [|simpl in Hlen; lia]. simpl in H. now injection H.
  - destruct stdin as [|x stdin'].
    { rewrite monitor_closed_input in H. simpl in H. now injection H. }
    destruct (iteration_cases (x :: stdin')) as [[r Hi] | [r Hi]].
    + rewrite (monitor_continue _ _ _ Hi) in H.
      apply (IH r); [|exact H].
      destruct (iteration_consumed (x :: stdin')) as (_ & _ & _ & Hlt).
      rewrite Hi in Hlt. unfold unread in Hlt. cbn [reader] in Hlt.
      specialize (Hlt ltac:(discriminate)). simpl in Hlen, Hlt. lia.
    + simpl in H. rewrite Hi in H. discriminate H.
Qed.

End Consumption.

(** X2: one pass of the reader takes a prefix of the input that holds no
    newline except, possibly, as its last rune, and takes at least one rune
    unless the input is at its end: a pass never reads into the line after
    the one it is on, and never stalls. *)
Theorem X2_pass_stops_at_the_newline (stdin : list rune) :
  exists body,
    ~ In nl body
    /\ (stdin = body ++ unread (iteration stdin)
        \/ stdin = body ++ nl :: unread (iteration stdin))
    /\ (stdin <> [] -> length (unread (iteration stdin)) < length stdin).
Proof. exact (iteration_consumed stdin). Qed.

(** X2 on the input "a b", "q": the first pass takes "a b" and no more. *)
Lemma X2_pass_stops_at_the_newline_witness :
  length (unread (iteration (line "a b" ++ line "q")))
  < length (line "a b" ++ line "q").
Proof.
  destruct (X2_pass_stops_at_the_newline (line "a b" ++ line "q"))
    as (_ & _ & _ & H).
  exact (H ltac:(discriminate)).
Defined.

(** X3: on an input of [n] runes followed by the end of input, the reader
    is settled after [n] passes: either it has returned, having sent once,
    or it has read everything without sending and will never send; more
    passes change nothing. *)
Theorem X3_reader_settles_within_the_input (stdin : list rune) (k : nat) :
  length stdin <= k ->
  _monitorKeyboard k stdin = _monitorKeyboard (length stdin) stdin
  /\ (_monitorKeyboard k stdin = mk_monitor (Reading []) 0
      \/ exists rest, _monitorKeyboard k stdin = mk_monitor (Returned rest) 1).
Proof.
  intros Hk.
  assert (S : _monitorKeyboard (length stdin) stdin = mk_monitor (Reading []) 0
              \/ exists rest, _monitorKeyboard (length stdin) stdin
                              = mk_monitor (Returned rest) 1).
  { destruct (monitor_cases (length stdin) stdin) as [[r H] | [r H]];
      [left | right; eauto].
    rewrite H. f_equal. f_equal.
    apply (monitor_exhausts (length stdin) stdin r (le_n _)).
    rewrite H. reflexivity. }
  assert (E : _monitorKeyboard k stdin = _monitorKeyboard (length stdin) stdin).
  { replace k with (length stdin + (k - length stdin)) by lia.
    destruct S as [H | [rest H]].
    - rewrite (monitor_add _ _ _ _ H), H. apply monitor_closed_input.
    - apply (monitor_returned_stable _ _ _ rest). rewrite H. reflexivity. }
  split; [exact E|]. rewrite E. exact S.
Qed.

(** X3 on the three runes of "ab" and its newline, left for ten passes. *)
Lemma X3_reader_settles_within_the_input_witness :
  _monitorKeyboard 10 (line "ab") = _monitorKeyboard 3 (line "ab").
Proof.
  exact (proj1 (X3_reader_settles_within_the_input (line "ab") 10
                  ltac:(simpl; lia))).
Defined.

Section Returning.


End Returning.

Section Boundaries.




End Boundaries.



(** X5: a quit command still quits when the input ends right after it,
    with no newline; any other word there sends nothing; and a line, or an
    end of input, that holds blanks only sends nothing. *)
Theorem X5_end_of_input_and_blank_lines (pre : list rune) :
  forallb blank pre = true ->
  (forall w post,
      w <> [] -> forallb notSpace w = true -> forallb blank post = true ->
      iteration (pre ++ w ++ post)
      = if is_quit w then mk_monitor (Returned []) 1
        else mk_monitor (Reading []) 0)
  /\ (forall rest, iteration (pre ++ nl :: rest) = mk_monitor (Reading rest) 0)
  /\ iteration pre = mk_monitor (Reading []) 0.
Proof.
  intros Hpre. repeat split.
  - intros w post Hne Hw Hpost. unfold iteration.
    rewrite (Read_Scanln _ _ _ (ReadLastWord pre w post Hpre Hne Hw Hpost)).
    destruct (is_quit w); reflexivity.
  - intros rest. unfold iteration.
    rewrite (Read_Scanln _ _ _ (ReadBlankLine pre rest Hpre)). reflexivity.
  - unfold iteration. rewrite (Read_Scanln _ _ _ (ReadEnd pre Hpre)).
    reflexivity.
Qed.

(** X5 on " quit" with nothing after it, and on a line of two spaces. *)
Lemma X5_end_of_input_and_blank_lines_witness :
  iteration (runes " " ++ runes "quit" ++ []) = mk_monitor (Returned []) 1
  /\ iteration (runes "  " ++ nl :: line "q")
     = mk_monitor (Reading (line "q")) 0.
Proof.
  split.
  - exact (proj1 (X5_end_of_input_and_blank_lines (runes " ") eq_refl)
             (runes "quit") [] ltac:(discriminate) eq_refl eq_refl).
  - exact (proj1 (proj2 (X5_end_of_input_and_blank_lines (runes "  ") eq_refl))
             (line "q")).
Defined.

Section CarriageReturns.

Lemma crlf_app (a b : list rune) : crlf (a ++ b) = crlf a ++ crlf b.
Proof.
  induction a as [|r a IH]; simpl; [reflexivity|].
  destruct (N.eqb r nl); simpl; rewrite IH; reflexivity.
Qed.

Lemma crlf_no_newline (l : list rune) : ~ In nl l -> crlf l = l.
Proof.
  induction l as [|r l IH]; simpl; [reflexivity|]. intros H.
  destruct (N.eqb_spec r nl) as [->|]; [exfalso; auto|].
  rewrite IH; [reflexivity | auto].
Qed.

Lemma blank_snoc_cr (l : list rune) :
  forallb blank l = true -> forallb blank (l ++ [cr]) = true.
Proof. intros H. rewrite forallb_app, H. reflexivity. Qed.

(** A read goes the same way when every newline comes with a carriage
    return before it. *)
Lemma Read_crlf (stdin : list rune) (r : list rune * option scanError)
    (rest : list rune) :
  Read stdin r rest -> Read (crlf stdin) r (crlf rest).
Proof.
  intros H. destruct H as
      [pre Hpre | pre rest Hpre | pre w post Hpre Hne Hw Hpost
       | pre w post rest Hpre Hne Hw Hpost
       | pre w post c tail Hpre Hne Hw Hpne Hpost Hc].
  - rewrite (crlf_no_newline pre (blank_no_newline _ Hpre)).
    apply ReadEnd, Hpre.
  - rewrite crlf_app, (crlf_no_newline pre (blank_no_newline _ Hpre)).
    simpl.
    change (pre ++ cr :: nl :: crlf rest)
      with (pre ++ [cr] ++ nl :: crlf rest).
    rewrite app_assoc. apply ReadBlankLine, blank_snoc_cr, Hpre.
  - rewrite !crlf_app, (crlf_no_newline pre (blank_no_newline _ Hpre)),
      (crlf_no_newline w (word_no_newline _ Hw)),
      (crlf_no_newline post (blank_no_newline _ Hpost)).
    apply ReadLastWord; assumption.
  - rewrite !crlf_app, (crlf_no_newline pre (blank_no_newline _ Hpre)),
      (crlf_no_newline w (word_no_newline _ Hw)),
      (crlf_no_newline post (blank_no_newline _ Hpost)).
    simpl.
    change (post ++ cr :: nl :: crlf rest)
      with (post ++ [cr] ++ nl :: crlf rest).
    rewrite (app_assoc post [cr]).
    apply ReadWord; try assumption. apply blank_snoc_cr, Hpost.
  - rewrite !crlf_app, (crlf_no_newline pre (blank_no_newline _ Hpre)),
      (crlf_no_newline w (word_no_newline _ Hw)),
      (crlf_no_newline post (blank_no_newline _ Hpost)).
    simpl. rewrite (notSpace_not_nl c Hc).
    apply ReadTwoWords; assumption.
Qed.

Lemma iteration_crlf (stdin : list rune) :
  iteration (crlf stdin) = on_unread crlf (iteration stdin).
Proof.
  unfold iteration.
  destruct (Scanln [] stdin) as [[input err] rest] eqn:E.
  apply Scanln_Read, Read_crlf, Read_Scanln in E.
  rewrite E. destruct err as [e|]; [reflexivity|].
  destruct (is_quit input); reflexivity.
Qed.

End CarriageReturns.

(** X6: a console that ends its lines with carriage return and newline
    gets the same decisions as one that ends them with the newline alone:
    after any number of passes the reader has sent as often, is returned or
    not alike, and has the corresponding input left. *)
Theorem X6_carriage_returns_change_nothing (n : nat) (stdin : list rune) :
  _monitorKeyboard n (crlf stdin) = on_unread crlf (_monitorKeyboard n stdin).
Proof.
  revert stdin; induction n as [|n IH]; intros stdin; [reflexivity|].
  destruct (iteration_cases stdin) as [[r Hi] | [r Hi]].
  - assert (Hc : iteration (crlf stdin) = mk_monitor (Reading (crlf r)) 0)
      by (rewrite iteration_crlf, Hi; reflexivity).
    rewrite (monitor_continue _ _ _ Hi), (monitor_continue _ _ _ Hc).
    apply IH.
  - simpl. rewrite iteration_crlf, Hi. reflexivity.
Qed.

(** ** Whole runs of the process *)

Section WholeRuns.

Lemma loop_status (GOOS : string) (events : list Event) :
  status (loop GOOS events)
  = if existsb stops events then Exited 0 else Running.
Proof.
  induction events as [|[| |h] events IH]; simpl; auto.
Qed.

Lemma supported_dec (GOOS : string) :
  (GOOS = "darwin" \/ GOOS = "windows")
  \/ (GOOS <> "darwin" /\ GOOS <> "windows").
Proof.
  destruct (String.eqb_spec GOOS "darwin"); [auto|].
  destruct (String.eqb_spec GOOS "windows"); auto.
Qed.

Lemma main_unsupported (b : Build) (GOOS GOARCH : string)
    (events : list Event) :
  GOOS <> "darwin" -> GOOS <> "windows" ->
  main b GOOS GOARCH events
  = mk_process
      (banner b GOOS GOARCH
       ++ [Print ("Error: This tool supports macOS and Windows only (detected: "
                  ++ GOOS ++ ")" ++ LF)%string])
      0 (Exited 1).
Proof.
  intros Hd Hw. apply String.eqb_neq in Hd, Hw.
  unfold main, platform_check. rewrite Hd, Hw. reflexivity.
Qed.

Lemma commands_simulate_darwin (h : Host) :
  commands (_simulateActivity "darwin" h)
  = [if LookPath h "cliclick" then cliclick else osascript].
Proof.
  rewrite simulate_darwin. cbv zeta.
  destruct (report_prints "darwin" h
              (Run h (if LookPath h "cliclick"
                      then exec_Command "cliclick"
                             ["m:+1,+1"; "w:10"; "m:-1,-1"]%string
                      else exec_Command "osascript"
                             ["-e"%string; darwin_script])))
    as (lines & _ & ->).
  cbn [commands]. rewrite commands_prints.
  destruct (LookPath h "cliclick"); reflexivity.
Qed.

Lemma commands_simulate_windows (h : Host) :
  commands (_simulateActivity "windows" h) = [powershell].
Proof.
  rewrite simulate_windows. cbv zeta.
  destruct (report_prints "windows" h
              (Run h (exec_Command "powershell"
                        ["-Command"%string; windows_script])))
    as (lines & _ & ->).
  cbn [commands]. rewrite commands_prints. reflexivity.
Qed.

Lemma lookups_simulate_darwin (h : Host) :
  lookups (_simulateActivity "darwin" h) = ["cliclick"%string].
Proof.
  rewrite simulate_darwin. cbv zeta.
  destruct (report_prints "darwin" h
              (Run h (if LookPath h "cliclick"
                      then exec_Command "cliclick"
                             ["m:+1,+1"; "w:10"; "m:-1,-1"]%string
                      else exec_Command "osascript"
                             ["-e"%string; darwin_script])))
    as (lines & _ & ->).
  cbn [lookups]. rewrite lookups_prints. reflexivity.
Qed.

Lemma lookups_simulate_windows (h : Host) :
  lookups (_simulateActivity "windows" h) = [].
Proof.
  rewrite simulate_windows. cbv zeta.
  destruct (report_prints "windows" h
              (Run h (exec_Command "powershell"
                        ["-Command"%string; windows_script])))
    as (lines & _ & ->).
  cbn [lookups]. rewrite lookups_prints. reflexivity.
Qed.

(** Before the loop a supported platform runs and looks up nothing. *)
Lemma startup_quiet (b : Build) (GOOS GOARCH : string) :
  GOOS = "darwin" \/ GOOS = "windows" ->
  commands (actions (main b GOOS GOARCH [])) = []
  /\ lookups (actions (main b GOOS GOARCH [])) = [].
Proof.
  intros [-> | ->]; split; reflexivity.
Qed.

(** In the loop of a supported platform every tick runs one command. *)
Lemma loop_one_command_per_tick (GOOS : string) (events : list Event) :
  GOOS = "darwin" \/ GOOS = "windows" ->
  length (commands (actions (loop GOOS events))) = invocations (loop GOOS events).
Proof.
  intros H.
  induction events as [|[| |h] events IH];
    cbn [loop actions invocations commands length]; auto.
  rewrite commands_app, length_app, IH.
  destruct H as [-> | ->];
    [rewrite commands_simulate_darwin | rewrite commands_simulate_windows];
    reflexivity.
Qed.

(** The commands and look-ups of the loop, by platform. *)
Lemma loop_commands_darwin (events : list Event) (c : Cmd) :
  In c (commands (actions (loop "darwin" events))) ->
  c = cliclick \/ c = osascript.
Proof.
  induction events as [|[| |h] events IH]; cbn [loop actions commands];
    try (intros []; fail).
  rewrite commands_app, commands_simulate_darwin, in_app_iff.
  intros [[<- | []] | Hin]; [|auto].
  destruct (LookPath h "cliclick"); auto.
Qed.

Lemma loop_commands_windows (events : list Event) (c : Cmd) :
  In c (commands (actions (loop "windows" events))) -> c = powershell.
Proof.
  induction events as [|[| |h] events IH]; cbn [loop actions commands];
    try (intros []; fail).
  rewrite commands_app, commands_simulate_windows, in_app_iff.
  intros [[<- | []] | Hin]; auto.
Qed.

Lemma loop_lookups_darwin (events : list Event) (f : string) :
  In f (lookups (actions (loop "darwin" events))) -> f = "cliclick"%string.
Proof.
  induction events as [|[| |h] events IH]; cbn [loop actions lookups];
    try (intros []; fail).
  rewrite lookups_app, lookups_simulate_darwin, in_app_iff.
  intros [[<- | []] | Hin]; auto.
Qed.

Lemma loop_lookups_windows (events : list Event) :
  lookups (actions (loop "windows" events)) = [].
Proof.
  induction events as [|[| |h] events IH]; cbn [loop actions lookups]; auto.
  rewrite lookups_app, lookups_simulate_windows, IH. reflexivity.
Qed.

End WholeRuns.

(** X7: the status of the process is decided by the platform and by
    whether a stopping event has arrived, and by nothing else: it has exited
    with 1 exactly on an unsupported platform, with 0 exactly on a supported
    platform once a signal or the keyboard quit is among the events, and is
    still running exactly on a supported platform with ticks only; no other
    exit status exists. *)
Theorem X7_exit_status_is_decided_by_platform_and_stop
    (b : Build) (GOOS GOARCH : string) (events : list Event) :
  (status (main b GOOS GOARCH events) = Exited 1
   <-> GOOS <> "darwin" /\ GOOS <> "windows")
  /\ (status (main b GOOS GOARCH events) = Exited 0
      <-> (GOOS = "darwin" \/ GOOS = "windows")
          /\ existsb stops events = true)
  /\ (status (main b GOOS GOARCH events) = Running
      <-> (GOOS = "darwin" \/ GOOS = "windows")
          /\ existsb stops events = false)
  /\ (forall code, status (main b GOOS GOARCH events) = Exited code ->
                   code = 0 \/ code = 1).
Proof.
  destruct (supported_dec GOOS) as [H | [Hd Hw]].
  - rewrite (main_supported b GOOS GOARCH events H). cbn [status].
    rewrite loop_status. destruct (existsb stops events).
    + split; [|split; [|split]];
        [ intuition congruence | intuition congruence | intuition congruence
        | intros code E; injection E as <-; auto ].
    + split; [|split; [|split]];
        [ intuition congruence | intuition congruence | intuition congruence
        | intros code E; discriminate E ].
  - rewrite (main_unsupported b GOOS GOARCH events Hd Hw). cbn [status].
    split; [|split; [|split]];
      [ intuition congruence | intuition congruence | intuition congruence
      | intros code E; injection E as <-; auto ].
Qed.

(** X8: in every run of [main], on every platform, the number of calls of
    [cmd.Run] equals the number of invocations: each invocation calls
    [cmd.Run] exactly once, on the command it has built; whether a process
    then starts is for the host to answer. The default case of
    [_simulateActivity], which prints the stamped "Unsupported operating
    system" line and calls neither [exec.LookPath] nor [cmd.Run], is never
    reached from [main]: wherever [main] invokes the strategy at all, every
    invocation settles on a command. *)
Theorem X8_each_invocation_calls_Run_once
    (b : Build) (GOOS GOARCH : string) (events : list Event) :
  length (commands (actions (main b GOOS GOARCH events)))
  = invocations (main b GOOS GOARCH events)
  /\ (invocations (main b GOOS GOARCH events) <> 0 ->
      forall h, exists cmd, chosen GOOS h = Some cmd)
  /\ (GOOS <> "darwin" -> GOOS <> "windows" ->
      forall h,
        _simulateActivity GOOS h
        = [Print ("[" ++ Format (Now h)
                  ++ "] Error: Unsupported operating system: " ++ GOOS
                  ++ LF)%string]).
Proof.
  split; [|split].
  - destruct (supported_dec GOOS) as [H | [Hd Hw]].
    + rewrite (main_supported b GOOS GOARCH events H). cbn [actions invocations].
      rewrite commands_app, length_app.
      rewrite (proj1 (startup_quiet b GOOS GOARCH H)).
      apply (loop_one_command_per_tick GOOS events H).
    + rewrite (main_unsupported b GOOS GOARCH events Hd Hw).
      cbn [actions invocations]. rewrite commands_app. reflexivity.
  - destruct (supported_dec GOOS) as [[-> | ->] | [Hd Hw]].
    + intros _ h. unfold chosen, choose. cbn [String.eqb Ascii.eqb Bool.eqb].
      destruct (LookPath h "cliclick"); eexists; reflexivity.
    + intros _ h. eexists. reflexivity.
    + rewrite (main_unsupported b GOOS GOARCH events Hd Hw).
      cbn [invocations]. contradiction.
  - intros Hd Hw h. apply String.eqb_neq in Hd, Hw.
    unfold _simulateActivity, choose. rewrite Hd, Hw. reflexivity.
Qed.

(** X8 on windows with two ticks, and on "linux". *)
Lemma X8_each_invocation_calls_Run_once_witness :
  (exists cmd, chosen "windows" bare = Some cmd)
  /\ _simulateActivity "linux" bare
     = [Print ("[08:30:00] Error: Unsupported operating system: linux"
               ++ LF)%string].
Proof.
  split.
  - exact (proj1 (proj2 (X8_each_invocation_calls_Run_once
                           unstamped "windows" "amd64"
                           [tickerC bare; tickerC failing]))
             ltac:(discriminate) bare).
  - exact (proj2 (proj2 (X8_each_invocation_calls_Run_once
                           unstamped "linux" "amd64" []))
             ltac:(discriminate) ltac:(discriminate) bare).
Defined.

(** X9: whatever the events and whatever the hosts answer, the process
    never calls [cmd.Run] on anything but three fixed commands, none of
    which takes any part of its name or arguments from the input: on
    darwin, cliclick or osascript with their constant arguments; on
    windows, powershell with its constant script; elsewhere none. The only
    name it passes to [exec.LookPath] itself is "cliclick", and only on
    darwin; the search that [exec.Command] makes for the name of its command
    is not a call of the program and is not counted here. *)
Theorem X9_only_three_fixed_commands
    (b : Build) (GOOS GOARCH : string) (events : list Event) :
  (forall c, In c (commands (actions (main b GOOS GOARCH events))) ->
             (GOOS = "darwin" /\ (c = cliclick \/ c = osascript))
             \/ (GOOS = "windows" /\ c = powershell))
  /\ (forall f, In f (lookups (actions (main b GOOS GOARCH events))) ->
                GOOS = "darwin" /\ f = "cliclick"%string).
Proof.
  destruct (supported_dec GOOS) as [H | [Hd Hw]].
  - rewrite (main_supported b GOOS GOARCH events H). cbn [actions].
    rewrite commands_app, lookups_app.
    destruct (startup_quiet b GOOS GOARCH H) as [-> ->]. cbn [app].
    destruct H as [-> | ->]; split.
    + intros c Hin. left. split; [reflexivity|].
      exact (loop_commands_darwin events c Hin).
    + intros f Hin. split; [reflexivity|].
      exact (loop_lookups_darwin events f Hin).
    + intros c Hin. right. split; [reflexivity|].
      exact (loop_commands_windows events c Hin).
    + intros f Hin. rewrite loop_lookups_windows in Hin. destruct Hin.
  - rewrite (main_unsupported b GOOS GOARCH events Hd Hw). cbn [actions].
    rewrite commands_app, lookups_app. split; intros ? [].
Qed.

(** X9 on darwin: the command of a tick without the helper is osascript. *)
Lemma X9_only_three_fixed_commands_witness :
  ("darwin"%string = "darwin"%string
   /\ (osascript = cliclick \/ osascript = osascript))
  \/ ("darwin"%string = "windows"%string /\ osascript = powershell).
Proof.
  exact (proj1 (X9_only_three_fixed_commands unstamped "darwin" "arm64"
                  [tickerC bare; sigChan])
           osascript (or_introl eq_refl)).
Defined.

(** ** The macOS build script *)

Section BuildScript.

Import BuildSh.

(** Options already read are not read again. *)
Lemma parse_app_bounded (b : list string) (o' : Options) (n : nat) :
  forall (a : list string) (o : Options),
    length a <= n -> parse a o = Parsed o' -> parse (a ++ b) o = parse b o'.
Proof.
  induction n as [|n IH]; intros a o Hn H.
  - destruct a; [|simpl in Hn; lia]. simpl in H. injection H as ->.
    reflexivity.
  - destruct a as [|x a]; [simpl in H; injection H as ->; reflexivity|].
    cbn [parse app] in *.
    repeat match goal with
           | |- context [if ?c then _ else _] => destruct c
           end;
      first
        [ discriminate H
        | apply IH; [simpl in Hn; lia | exact H]
        | destruct a as [|v a];
          [ discriminate H
          | cbn [app]; apply IH; [simpl in Hn; lia | exact H] ] ].
Qed.

Lemma bind_steps {A B : Type} (m : Script A) (k : A -> Script B) (w : World)
    (s : Step) :
  In s (fst (bind m k w)) ->
  In s (fst (m w)) \/ exists a, snd (m w) = inl a /\ In s (fst (k a w)).
Proof.
  unfold bind. destruct (m w) as [steps [a | code]]; [|auto].
  destruct (k a w) as [steps' r] eqn:E. cbn [fst snd]. rewrite in_app_iff.
  intros [H | H]; [auto|]. right. exists a. rewrite E. auto.
Qed.

Lemma bind_done {A B : Type} (m : Script A) (k : A -> Script B) (w : World)
    (v : B) :
  snd (bind m k w) = inl v ->
  exists a, snd (m w) = inl a /\ snd (k a w) = inl v
            /\ fst (bind m k w) = fst (m w) ++ fst (k a w).
Proof.
  unfold bind. destruct (m w) as [steps [a | code]]; [|discriminate].
  destruct (k a w) as [steps' r] eqn:E. cbn [fst snd]. intros ->.
  exists a. rewrite E. auto.
Qed.

Lemma in_removelast {A : Type} (x : A) (l : list A) :
  In x (removelast l) -> In x l.
Proof.
  induction l as [|y [|z l] IH]; simpl; [tauto | tauto |].
  intros [H | H]; [auto | right; apply IH, H].
Qed.

Lemma disciplined_bind {A B : Type} (w : World) (m : Script A)
    (k : A -> Script B) :
  disciplined w m -> (forall a, disciplined w (k a)) ->
  disciplined w (bind m k).
Proof.
  intros (Hm1 & Hm2 & Hm3) Hk. unfold disciplined, bind in *.
  destruct (m w) as [steps [a | code]]; cbn [fst snd] in *.
  - destruct (Hk a) as (Hk1 & Hk2 & Hk3).
    destruct (k a w) as [steps' r]. cbn [fst snd] in *. split; [|split].
    + intros argv Hin. destruct steps' as [|s steps'].
      * rewrite app_nil_r in Hin. apply Hm1, Hin.
      * rewrite removelast_app in Hin by discriminate.
        apply in_app_iff in Hin as [Hin | Hin];
          [apply (Hm2 a eq_refl), Hin | apply Hk1, Hin].
    + intros b -> argv Hin. apply in_app_iff in Hin as [Hin | Hin];
        [apply (Hm2 a eq_refl), Hin | apply (Hk2 b eq_refl), Hin].
    + exact Hk3.
  - split; [exact Hm1 | split; [discriminate|]].
    intros code' E. injection E as <-. exact (Hm3 code eq_refl).
Qed.

Lemma disciplined_exec (w : World) (argv : list string) :
  disciplined w (exec argv).
Proof.
  unfold disciplined, exec. cbn [fst snd removelast].
  destruct (Nat.eqb_spec (status_of w argv) 0) as [E | E].
  - split; [intros ? [] | split; [|discriminate]].
    intros a _ argv' [E' | []]. injection E' as <-. exact E.
  - split; [intros ? [] | split; [discriminate|]].
    intros code H. injection H as <-. exact E.
Qed.

Lemma disciplined_go_build (w : World) (args : list string) :
  disciplined w (go_build args).
Proof.
  unfold disciplined, go_build. cbn [fst snd removelast].
  destruct (Nat.eqb_spec (status_of w ("go" :: args)) 0) as [E | E].
  - split; [intros ? [] | split; [|discriminate]].
    intros a _ argv' [E' | []]. injection E' as <-. exact E.
  - split; [intros ? [] | split; [discriminate|]].
    intros code H. injection H as <-. discriminate.
Qed.

(** A piece of script that runs no command and exits, if at all, with a
    status other than 0. *)
Lemma disciplined_quiet {A : Type} (w : World) (m : Script A) :
  (forall argv, ~ In (Exec argv) (fst (m w))) ->
  (forall code, snd (m w) = inr code -> code <> 0) ->
  disciplined w m.
Proof.
  intros H H0. split; [|split; [|exact H0]].
  - intros argv Hin. destruct (H argv (in_removelast _ _ Hin)).
  - intros a _ argv Hin. destruct (H argv Hin).
Qed.

Lemma disciplined_build (o : Options) (w : World) : disciplined w (build o).
Proof.
  unfold build.
  apply disciplined_bind; [apply disciplined_exec | intros _].
  apply disciplined_bind.
  { destruct (valid_environment (ENVIRONMENT o));
      apply (disciplined_quiet w); cbn [fst snd ret exit];
      [ intros argv [] | discriminate
      | intros argv [] | intros code E; injection E as <-; discriminate ]. }
  intros _. apply disciplined_bind.
  { apply (disciplined_quiet w); destruct (target_arch o w);
      cbn [fst snd ret exit];
      [ intros argv [] | intros argv []
      | discriminate | intros code E; injection E as <-; discriminate ]. }
  intros arch. apply disciplined_bind.
  { apply (disciplined_quiet w); [intros argv [] | discriminate]. }
  intros version. apply disciplined_bind.
  { apply (disciplined_quiet w); [intros argv [] | discriminate]. }
  intros build_time. apply disciplined_bind.
  { unfold clean. destruct (CLEAN o).
    - apply disciplined_bind; [|intros _; apply disciplined_exec].
      destruct (bin_is_dir w) eqn:D.
      + pose proof (disciplined_exec w ["rm"; "-rf"; "bin"]%string) as P.
        unfold disciplined in *. rewrite D. exact P.
      + apply (disciplined_quiet w); rewrite D; [intros argv [] | discriminate].
    - apply (disciplined_quiet w); [intros argv [] | discriminate]. }
  intros _. apply disciplined_bind.
  { unfold test. destruct (TEST o); [destruct (VERBOSE o)|];
      try apply disciplined_exec.
    apply (disciplined_quiet w); [intros argv [] | discriminate]. }
  intros _. apply disciplined_bind; [apply disciplined_exec | intros _].
  apply disciplined_bind.
  { apply (disciplined_quiet w); [|discriminate].
    intros argv [E | []]. discriminate E. }
  intros _. apply disciplined_bind.
  { apply (disciplined_quiet w); [|discriminate].
    intros argv [E | []]. discriminate E. }
  intros _. apply disciplined_bind.
  { apply (disciplined_quiet w); [|discriminate].
    intros argv [E | []]. discriminate E. }
  intros _. apply disciplined_bind; [apply disciplined_go_build | intros _].
  apply disciplined_exec.
Qed.

Lemma bind_first {A B : Type} (m : Script A) (k : A -> Script B) (w : World)
    (s : Step) :
  In s (fst (m w)) -> In s (fst (bind m k w)).
Proof.
  unfold bind. destruct (m w) as [steps [a | code]]; [|auto].
  destruct (k a w) as [steps' r]. cbn [fst]. rewrite in_app_iff. auto.
Qed.

Lemma bind_later {A B : Type} (m : Script A) (k : A -> Script B) (w : World)
    (s : Step) (a : A) :
  snd (m w) = inl a -> In s (fst (k a w)) -> In s (fst (bind m k w)).
Proof.
  unfold bind. destruct (m w) as [steps [a' | code]]; [|discriminate].
  cbn [snd]. intros E. injection E as ->.
  destruct (k a w) as [steps' r]. cbn [fst]. rewrite in_app_iff. auto.
Qed.

Lemma target_arch_valid (o : Options) (w : World) (arch : string) :
  target_arch o w = Some arch ->
  (arch = "amd64" \/ arch = "arm64")%string.
Proof.
  unfold target_arch.
  destruct ((ARCH o =? EmptyString) || (ARCH o =? "auto"))%string.
  - destruct (uname_m w =? "x86_64")%string; [intros E; injection E; auto|].
    destruct (uname_m w =? "arm64")%string; [intros E; injection E; auto|].
    discriminate.
  - destruct (ARCH o =? "amd64")%string eqn:E1;
      [apply String.eqb_eq in E1; intros E; injection E as <-; auto|].
    destruct (ARCH o =? "arm64")%string eqn:E2;
      [apply String.eqb_eq in E2; intros E; injection E as <-; auto|].
    discriminate.
Qed.

(** [clean] and [test] run nothing but their own commands. *)
Lemma clean_steps (o : Options) (w : World) (s : Step) :
  In s (fst (clean o w)) ->
  s = Exec ["rm"; "-rf"; "bin"]%string
  \/ s = Exec ["go"; "clean"; "-cache"]%string.
Proof.
  unfold clean. destruct (CLEAN o); [|intros []].
  intros H. apply bind_steps in H as [H | (a & _ & H)].
  - destruct (bin_is_dir w); [|destruct H].
    destruct H as [<- | []]. auto.
  - destruct H as [<- | []]. auto.
Qed.

Lemma test_steps (o : Options) (w : World) (s : Step) :
  In s (fst (test o w)) ->
  s = Exec ["go"; "test"; "-v"; "./..."]%string
  \/ s = Exec ["go"; "test"; "./..."]%string.
Proof.
  unfold test. destruct (TEST o); [|intros []].
  destruct (VERBOSE o); intros [<- | []]; auto.
Qed.

Lemma Exec_tail (a a' : string) (l l' : list string) :
  Exec (a :: l) = Exec (a' :: l') -> l = l'.
Proof. intros E. injection E as _ E. exact E. Qed.

Ltac peel H a E := apply bind_steps in H as [H | (a & E & H)].

Ltac later := eapply bind_later; [first [eassumption | reflexivity] |].

(** A [go build] that runs is the one the script composes, after the
    checks and the exports. *)
Lemma build_go_build (o : Options) (w : World) (build_args : list string) :
  In (Exec ("go" :: "build" :: build_args)%string) (fst (build o w)) ->
  valid_environment (ENVIRONMENT o) = true
  /\ exists arch,
       target_arch o w = Some arch
       /\ ("build" :: build_args)%string
          = BUILD_ARGS o ("bin/" ++ OUTPUT_NAME arch)%string
                       (resolve_version o w) (date_now w)
       /\ In (Export "CGO_ENABLED" "0") (fst (build o w))
       /\ In (Export "GOOS" "darwin") (fst (build o w))
       /\ In (Export "GOARCH" arch) (fst (build o w)).
Proof.
  intros H. unfold build in *.
  peel H u1 E1. { destruct H as [E | []]. discriminate E. }
  peel H u2 E2.
  { destruct (valid_environment (ENVIRONMENT o)); destruct H. }
  peel H arch E3. { destruct (target_arch o w); destruct H. }
  peel H version E4. { destruct H. }
  peel H build_time E5. { destruct H. }
  peel H u6 E6.
  { apply clean_steps in H as [E | E]; discriminate E. }
  peel H u7 E7.
  { apply test_steps in H as [E | E]; discriminate E. }
  peel H u8 E8. { destruct H as [E | []]. discriminate E. }
  peel H u9 E9. { destruct H as [E | []]. discriminate E. }
  peel H u10 E10. { destruct H as [E | []]. discriminate E. }
  peel H u11 E11. { destruct H as [E | []]. discriminate E. }
  peel H u12 E12; [|destruct H as [E | []]; discriminate E].
  destruct H as [E | []]. apply Exec_tail in E.
  split.
  { destruct (valid_environment (ENVIRONMENT o)); [reflexivity|].
    discriminate E2. }
  exists arch.
  assert (Ha : target_arch o w = Some arch).
  { destruct (target_arch o w); [|discriminate E3].
    cbn [ret snd] in E3. injection E3 as ->. reflexivity. }
  cbn [ret snd] in E4, E5. injection E4 as <-. injection E5 as <-.
  split; [exact Ha|]. split; [symmetry; exact E|].
  split; [|split]; do 8 later.
  - apply bind_first. left. reflexivity.
  - later. apply bind_first. left. reflexivity.
  - do 2 later. apply bind_first. left. reflexivity.
Qed.

(** A script that runs to its end has built. *)
Lemma build_done (o : Options) (w : World) (v : unit) :
  snd (build o w) = inl v ->
  exists arch,
    target_arch o w = Some arch
    /\ In (Exec ("go" :: BUILD_ARGS o ("bin/" ++ OUTPUT_NAME arch)%string
                           (resolve_version o w) (date_now w))%string)
          (fst (build o w)).
Proof.
  intros H. pose proof H as H0. unfold build in H.
  apply bind_done in H as (u1 & E1 & H & _).
  apply bind_done in H as (u2 & E2 & H & _).
  apply bind_done in H as (arch & E3 & H & _).
  apply bind_done in H as (version & E4 & H & _).
  apply bind_done in H as (build_time & E5 & H & _).
  apply bind_done in H as (u6 & E6 & H & _).
  apply bind_done in H as (u7 & E7 & H & _).
  apply bind_done in H as (u8 & E8 & H & _).
  apply bind_done in H as (u9 & E9 & H & _).
  apply bind_done in H as (u10 & E10 & H & _).
  apply bind_done in H as (u11 & E11 & H & _).
  apply bind_done in H as (u12 & E12 & H & _).
  exists arch.
  assert (Ha : target_arch o w = Some arch).
  { destruct (target_arch o w); [|discriminate E3].
    cbn [ret snd] in E3. injection E3 as ->. reflexivity. }
  split; [exact Ha|].
  cbn [ret snd] in E4, E5. injection E4 as <-. injection E5 as <-.
  unfold build.
  do 11 later. apply bind_first. left. reflexivity.
Qed.

(** The commands that are steps of a run are the five the script runs
    for their effect. *)
Lemma build_programs (o : Options) (w : World) (argv : list string) :
  In (Exec argv) (fst (build o w)) ->
  exists program rest,
    argv = program :: rest
    /\ In program ["cd"; "rm"; "go"; "mkdir"; "chmod"]%string.
Proof.
  intros H. unfold build in *.
  peel H u1 E1.
  { destruct H as [E | []]. injection E as <-. eexists _, _.
    split; [reflexivity|]. simpl. auto. }
  peel H u2 E2.
  { destruct (valid_environment (ENVIRONMENT o)); destruct H. }
  peel H arch E3. { destruct (target_arch o w); destruct H. }
  peel H version E4. { destruct H. }
  peel H build_time E5. { destruct H. }
  peel H u6 E6.
  { apply clean_steps in H as [E | E]; injection E as ->; eexists _, _;
      (split; [reflexivity|]); simpl; auto. }
  peel H u7 E7.
  { apply test_steps in H as [E | E]; injection E as ->; eexists _, _;
      (split; [reflexivity|]); simpl; auto. }
  peel H u8 E8.
  { destruct H as [E | []]. injection E as <-. eexists _, _.
    split; [reflexivity|]. simpl. auto 6. }
  peel H u9 E9. { destruct H as [E | []]. discriminate E. }
  peel H u10 E10. { destruct H as [E | []]. discriminate E. }
  peel H u11 E11. { destruct H as [E | []]. discriminate E. }
  peel H u12 E12.
  { destruct H as [E | []]. injection E as <-. eexists _, _.
    split; [reflexivity|]. simpl. auto. }
  destruct H as [E | []]. injection E as <-. eexists _, _.
  split; [reflexivity|]. simpl. auto 6.
Qed.

End BuildScript.

(** X10: the options of the build script are read from left to right,
    each on its own: once the arguments [a] have been read into the options
    [o'], whatever follows is read from [o'] as if it came first. So
    [--help] after well-formed options leaves with status 0 whatever comes
    after it, and the last [--environment] given is the one kept. *)
Theorem X10_options_are_read_left_to_right
    (a b : list string) (o o' : BuildSh.Options) :
  BuildSh.parse a o = BuildSh.Parsed o' ->
  BuildSh.parse (a ++ b) o = BuildSh.parse b o'
  /\ (forall rest,
         BuildSh.parse (a ++ "--help"%string :: rest) o = BuildSh.Leave 0)
  /\ (forall v,
         BuildSh.parse (a ++ ["--environment"%string; v]) o
         = BuildSh.Parsed
             (BuildSh.mk_options v (BuildSh.VERSION o') (BuildSh.CLEAN o')
                (BuildSh.TEST o') (BuildSh.VERBOSE o') (BuildSh.RELEASE o')
                (BuildSh.ARCH o'))).
Proof.
  intros H.
  assert (P : forall b, BuildSh.parse (a ++ b) o = BuildSh.parse b o')
    by (intros b0; exact (parse_app_bounded b0 o' (length a) a o (le_n _) H)).
  split; [apply P|]. split; intros; rewrite P; reflexivity.
Qed.

(** X10 after "--release --environment prod": help wins over a later
    unknown option. *)
Lemma X10_options_are_read_left_to_right_witness :
  BuildSh.parse (["--release"; "--environment"; "prod"]%string
                 ++ ["--help"; "--bogus"]%string) BuildSh.defaults
  = BuildSh.Leave 0.
Proof.
  exact (proj1 (proj2 (X10_options_are_read_left_to_right
                         ["--release"; "--environment"; "prod"]%string []
                         BuildSh.defaults _ eq_refl))
           ["--bogus"%string]).
Defined.

(** X11: the build script checks its target before it touches anything:
    with an environment other than dev, staging and prod, or an
    architecture it cannot settle on amd64 or arm64, it exits with status 1
    having done nothing but change directory: no clean, no test, no build. *)
Theorem X11_nothing_runs_for_an_invalid_target
    (args : list string) (w : BuildSh.World) (o : BuildSh.Options) :
  BuildSh.parse args BuildSh.defaults = BuildSh.Parsed o ->
  BuildSh.status_of w ["cd"%string; BuildSh.project_root w] = 0 ->
  BuildSh.valid_environment (BuildSh.ENVIRONMENT o) = false
  \/ BuildSh.target_arch o w = None ->
  BuildSh.build_sh args w
  = ([BuildSh.Exec ["cd"%string; BuildSh.project_root w]], 1).
Proof.
  intros Hp Hcd Hbad. unfold BuildSh.build_sh. rewrite Hp.
  unfold BuildSh.build, BuildSh.bind at 1, BuildSh.exec at 1.
  rewrite Hcd. cbn [Nat.eqb].
  unfold BuildSh.bind at 1.
  destruct (BuildSh.valid_environment (BuildSh.ENVIRONMENT o)) eqn:V;
    [|reflexivity].
  destruct Hbad as [Hbad | Hbad]; [discriminate Hbad|].
  cbn [BuildSh.ret]. unfold BuildSh.bind at 1. rewrite Hbad. reflexivity.
Qed.

(** X11 for the environment "qa". *)
Lemma X11_nothing_runs_for_an_invalid_target_witness :
  BuildSh.build_sh ["-e"; "qa"; "--clean"; "--test"]%string BuildSh.workshop
  = ([BuildSh.Exec ["cd"; "/src/keep-alive"]%string], 1).
Proof.
  exact (X11_nothing_runs_for_an_invalid_target
           ["-e"; "qa"; "--clean"; "--test"]%string BuildSh.workshop _
           eq_refl eq_refl (or_introl eq_refl)).
Defined.

(** X12: whenever the build script runs [go build] at all, it is the
    command the script composes for a checked target: the environment is
    dev, staging or prod, the architecture is amd64 or arm64, the output is
    bin/keep-alive-darwin- followed by the architecture, CGO_ENABLED=0,
    GOOS=darwin and GOARCH are exported, and the flags stamp the resolved
    version, the build time and the environment. *)
Theorem X12_what_go_build_is_run_with
    (args : list string) (w : BuildSh.World) (build_args : list string) :
  In (BuildSh.Exec ("go" :: "build" :: build_args)%string)
     (fst (BuildSh.build_sh args w)) ->
  exists o arch,
    BuildSh.parse args BuildSh.defaults = BuildSh.Parsed o
    /\ BuildSh.valid_environment (BuildSh.ENVIRONMENT o) = true
    /\ BuildSh.target_arch o w = Some arch
    /\ (arch = "amd64" \/ arch = "arm64")%string
    /\ ("build" :: build_args)%string
       = BuildSh.BUILD_ARGS o ("bin/keep-alive-darwin-" ++ arch)%string
           (BuildSh.resolve_version o w) (BuildSh.date_now w)
    /\ In (BuildSh.Export "CGO_ENABLED" "0") (fst (BuildSh.build_sh args w))
    /\ In (BuildSh.Export "GOOS" "darwin") (fst (BuildSh.build_sh args w))
    /\ In (BuildSh.Export "GOARCH" arch) (fst (BuildSh.build_sh args w)).
Proof.
  unfold BuildSh.build_sh.
  destruct (BuildSh.parse args BuildSh.defaults) as [o | code]; [|intros []].
  intros H.
  assert (T : fst (let (steps, r) := BuildSh.build o w in
                   match r with
                   | inl _ => (steps, 0)
                   | inr code => (steps, code)
                   end) = fst (BuildSh.build o w))
    by (destruct (BuildSh.build o w) as [steps [v | code]]; reflexivity).
  rewrite T in *.
  destruct (build_go_build o w build_args H)
    as (V & arch & Ha & E & H1 & H2 & H3).
  exists o, arch. pose proof (target_arch_valid o w arch Ha) as Hv.
  repeat split; try assumption.
  rewrite E. destruct Hv as [-> | ->]; reflexivity.
Qed.

(** X12 on a release build for Apple Silicon. *)
Lemma X12_what_go_build_is_run_with_witness :
  exists o arch,
    BuildSh.parse ["--release"]%string BuildSh.defaults = BuildSh.Parsed o
    /\ BuildSh.valid_environment (BuildSh.ENVIRONMENT o) = true
    /\ BuildSh.target_arch o BuildSh.workshop = Some arch
    /\ (arch = "amd64" \/ arch = "arm64")%string
    /\ ["build"; "-o"; "bin/keep-alive-darwin-arm64"; "-trimpath"; "-ldflags";
        "-X 'main.Version=1.2.3' -X 'main.BuildTime=2025-09-18 11:01:17' -X 'main.Environment=dev' -s -w";
        "."]%string
       = BuildSh.BUILD_ARGS o ("bin/keep-alive-darwin-" ++ arch)%string
           (BuildSh.resolve_version o BuildSh.workshop)
           (BuildSh.date_now BuildSh.workshop)
    /\ In (BuildSh.Export "CGO_ENABLED" "0")
          (fst (BuildSh.build_sh ["--release"]%string BuildSh.workshop))
    /\ In (BuildSh.Export "GOOS" "darwin")
          (fst (BuildSh.build_sh ["--release"]%string BuildSh.workshop))
    /\ In (BuildSh.Export "GOARCH" arch)
          (fst (BuildSh.build_sh ["--release"]%string BuildSh.workshop)).
Proof.
  apply (X12_what_go_build_is_run_with ["--release"]%string BuildSh.workshop
           ["-o"; "bin/keep-alive-darwin-arm64"; "-trimpath"; "-ldflags";
            "-X 'main.Version=1.2.3' -X 'main.BuildTime=2025-09-18 11:01:17' -X 'main.Environment=dev' -s -w";
            "."]%string).
  vm_compute. do 5 right. left. reflexivity.
Defined.

(** X13: the commands that are steps of a run of the build script are the
    ones it runs for their effect: cd, rm, go (clean, test, build), mkdir
    and chmod. Among these the script stops at the first that fails: every
    one that is followed by a further step has succeeded. The script exits
    with status 0 only if every one of them that it ran succeeded, and then
    either help was asked for or [go build] has run: success is never
    reported without a build. The commands whose failure the script
    tolerates (git rev-parse, the grep pipeline, stat, bc) only compute
    values and are not steps. *)
Theorem X13_effect_commands_stop_at_the_first_failure
    (args : list string) (w : BuildSh.World) :
  (forall argv,
      In (BuildSh.Exec argv) (fst (BuildSh.build_sh args w)) ->
      exists program rest,
        argv = program :: rest
        /\ In program ["cd"; "rm"; "go"; "mkdir"; "chmod"]%string)
  /\ (forall argv,
         In (BuildSh.Exec argv) (removelast (fst (BuildSh.build_sh args w))) ->
         BuildSh.status_of w argv = 0)
  /\ (snd (BuildSh.build_sh args w) = 0 ->
      (forall argv,
          In (BuildSh.Exec argv) (fst (BuildSh.build_sh args w)) ->
          BuildSh.status_of w argv = 0)
      /\ (BuildSh.parse args BuildSh.defaults = BuildSh.Leave 0
          \/ exists o arch,
               BuildSh.parse args BuildSh.defaults = BuildSh.Parsed o
               /\ BuildSh.target_arch o w = Some arch
               /\ In (BuildSh.Exec
                        ("go" :: BuildSh.BUILD_ARGS o
                                   ("bin/" ++ BuildSh.OUTPUT_NAME arch)
                                   (BuildSh.resolve_version o w)
                                   (BuildSh.date_now w))%string)
                     (fst (BuildSh.build_sh args w)))).
Proof.
  unfold BuildSh.build_sh.
  destruct (BuildSh.parse args BuildSh.defaults) as [o | code].
  - destruct (disciplined_build o w) as (D1 & D2 & D3).
    pose proof (build_done o w) as B.
    pose proof (build_programs o w) as N.
    destruct (BuildSh.build o w) as [steps [v | code]]; cbn [fst snd] in *.
    + split; [exact N|]. split; [exact D1|].
      intros _. split; [exact (D2 v eq_refl)|].
      right. destruct (B v eq_refl) as (arch & Ha & Hin). eauto.
    + split; [exact N|]. split; [exact D1|].
      intros ->. destruct (D3 0 eq_refl eq_refl).
  - cbn [fst snd removelast]. split; [intros ? []|]. split; [intros ? []|].
    intros ->. split; [intros ? [] | auto].
Qed.

(** X13 with failing tests: the script ends with the status of the tests
    and its last step is the test run. *)
Lemma X13_effect_commands_stop_at_the_first_failure_witness :
  BuildSh.status_of BuildSh.red_tests ["cd"; "/src/keep-alive"]%string = 0
  /\ BuildSh.build_sh ["--test"; "--release"]%string BuildSh.red_tests
     = ([BuildSh.Exec ["cd"; "/src/keep-alive"]%string;
         BuildSh.Exec ["go"; "test"; "./..."]%string], 2).
Proof.
  split; [|reflexivity].
  exact (proj1 (proj2 (X13_effect_commands_stop_at_the_first_failure
                         ["--test"; "--release"]%string BuildSh.red_tests))
           ["cd"; "/src/keep-alive"]%string (or_introl eq_refl)).
Defined.

Section Versions.

Import BuildSh.

Lemma resolve_version_nonempty (o : Options) (w : World) :
  git_rev_parse w <> Some (Some EmptyString) ->
  resolve_version o w <> EmptyString.
Proof.
  intros G. unfold resolve_version.
  destruct (String.eqb_spec (VERSION o) EmptyString) as [_ | N]; [|exact N].
  destruct (dot_version w) as [v|].
  - destruct (String.eqb_spec v EmptyString) as [_ | N]; [|exact N].
    destruct (git_rev_parse w) as [[h|]|]; try discriminate.
    intros ->. apply G. reflexivity.
  - cbn [String.eqb].
    destruct (git_rev_parse w) as [[h|]|]; try discriminate.
    intros ->. apply G. reflexivity.
Qed.

Lemma resolve_version_option (o : Options) (w : World) :
  VERSION o <> EmptyString -> resolve_version o w = VERSION o.
Proof.
  intros N. unfold resolve_version.
  destruct (String.eqb_spec (VERSION o) EmptyString); [contradiction|].
  reflexivity.
Qed.

Lemma ldflags_in_build_args (o : Options) (path version build_time : string)
    (build_args : list string) :
  ("build" :: build_args)%string = BUILD_ARGS o path version build_time ->
  In (String.concat " " (LDFLAGS o version build_time)) build_args.
Proof.
  intros E.
  assert (E' : build_args
               = "-o"%string :: path
                 :: (if RELEASE o then ["-trimpath"%string] else [])
                    ++ "-ldflags"%string
                       :: String.concat " " (LDFLAGS o version build_time)
                       :: (if VERBOSE o then ["-v"%string] else [])
                          ++ ["."%string])
    by (apply (f_equal (@tl string)) in E; exact E).
  rewrite E'. right. right. apply in_app_iff. right. right. left.
  reflexivity.
Qed.

End Versions.

(** X14: a binary is never stamped with an empty version: provided git,
    when it answers, gives a hash that is not empty, the flags of every
    [go build] the script runs stamp a version that is not empty, and it is
    the one given by [--version] whenever that one is not empty. *)
Theorem X14_stamped_version_is_never_empty
    (args : list string) (w : BuildSh.World) (build_args : list string) :
  BuildSh.git_rev_parse w <> Some (Some EmptyString) ->
  In (BuildSh.Exec ("go" :: "build" :: build_args)%string)
     (fst (BuildSh.build_sh args w)) ->
  exists o version,
    BuildSh.parse args BuildSh.defaults = BuildSh.Parsed o
    /\ version <> EmptyString
    /\ (BuildSh.VERSION o <> EmptyString -> version = BuildSh.VERSION o)
    /\ In (String.concat " "
             (BuildSh.LDFLAGS o version (BuildSh.date_now w)))
          build_args.
Proof.
  intros G. unfold BuildSh.build_sh.
  destruct (BuildSh.parse args BuildSh.defaults) as [o | code]; [|intros []].
  intros H.
  assert (T : fst (let (steps, r) := BuildSh.build o w in
                   match r with
                   | inl _ => (steps, 0)
                   | inr code => (steps, code)
                   end) = fst (BuildSh.build o w))
    by (destruct (BuildSh.build o w) as [steps [v | code]]; reflexivity).
  rewrite T in H.
  destruct (build_go_build o w build_args H) as (_ & arch & _ & E & _).
  exists o, (BuildSh.resolve_version o w).
  split; [reflexivity|]. split; [exact (resolve_version_nonempty o w G)|].
  split; [intros N; exact (resolve_version_option o w N)|].
  exact (ldflags_in_build_args o _ _ _ _ E).
Qed.

(** X14 on a machine with neither a .version file nor git: the version
    stamped is "dev". *)
Lemma X14_stamped_version_is_never_empty_witness :
  exists o version,
    BuildSh.parse [] BuildSh.defaults = BuildSh.Parsed o
    /\ version <> EmptyString
    /\ (BuildSh.VERSION o <> EmptyString -> version = BuildSh.VERSION o)
    /\ In (String.concat " "
             (BuildSh.LDFLAGS o version "2025-09-18 11:01:17"))
          ["-o"; "bin/keep-alive-darwin-amd64"; "-ldflags";
           "-X 'main.Version=dev' -X 'main.BuildTime=2025-09-18 11:01:17' -X 'main.Environment=dev'";
           "."]%string.
Proof.
  apply (X14_stamped_version_is_never_empty []
           (BuildSh.mk_world "/src/keep-alive" "x86_64" None None
              "2025-09-18 11:01:17" false (fun _ => 0))
           ["-o"; "bin/keep-alive-darwin-amd64"; "-ldflags";
            "-X 'main.Version=dev' -X 'main.BuildTime=2025-09-18 11:01:17' -X 'main.Environment=dev'";
            "."]%string).
  - discriminate.
  - vm_compute. do 5 right. left. reflexivity.
Defined.

(** X1 on "q now" followed by a newline: the read fails after taking the
    "n". *)
Lemma X1_read_follows_the_shape_of_the_input_witness :
  Read (line "q now") (runes "q", Some errExpectedNewline) (line "ow").
Proof.
  exact (proj1 (X1_read_follows_the_shape_of_the_input
                  (line "q now") (runes "q") (Some errExpectedNewline)
                  (line "ow"))
           eq_refl).
Defined.

(** X7 on darwin with a tick and then a signal. *)
Lemma X7_exit_status_is_decided_by_platform_and_stop_witness :
  status (main unstamped "darwin" "arm64" [tickerC bare; sigChan]) = Exited 0.
Proof.
  exact (proj2 (proj1 (proj2 (X7_exit_status_is_decided_by_platform_and_stop
                                unstamped "darwin" "arm64"
                                [tickerC bare; sigChan])))
           (conj (or_introl eq_refl) eq_refl)).
Defined.

(** ** Ticks and time *)

Section Timing.

Variable T : N.
Hypothesis T_positive : T <> 0%N.







End Timing.

Section TimedRuns.





End TimedRuns.



